(** * Client side of the sfdroid sensor and buffer-relay socket protocols

    A shallow embedding of
      - [modules/sfdroid_sensors/sfdroid_sensors.c]
        ([connect_to_sfdroid], [poll__poll], [poll__activate], [poll__setDelay])
      - [modules/sharebuffer/sharebuffer.cpp]
        ([connect_to_renderer], [send_native_handle], [recv_status], [fb_post])

    The C code talks to the kernel and to the peer through system calls.
    Every call the code makes is appended to a trace, and the value the call
    returns is chosen by an environment that sees the whole trace so far.
    All functions of the model are total and executable. *)

From Stdlib Require Import ZArith List String Ascii Bool Lia.
From Stdlib Require Import Strings.Byte Numbers.DecimalString.
Import ListNotations.
Local Open Scope Z_scope.

(** ** Bytes, C strings and integers *)

Module C.

Definition uchar (b : byte) : Z := Z.of_N (Byte.to_N b).

Definition byte_of_Z (z : Z) : byte :=
  match Byte.of_N (Z.to_N (z mod 256)) with
  | Some b => b
  | None => x00
  end.

(** Constants of the target and of headers the modules include but do not
    define themselves.  [char_signed] is the signedness of plain [char],
    [lp64] tells whether [size_t] has 64 bits rather than 32;
    [SENSORS_HANDLE_BASE] and [sizeof_sensors_event_t] come from
    [hardware/sensors.h]. *)
Record platform : Type := {
  char_signed : bool;
  lp64 : bool;
  SENSORS_HANDLE_BASE : Z;
  sizeof_sensors_event_t : Z
}.

Definition size_t_bits (P : platform) : Z := if lp64 P then 64 else 32.

(** The value of a plain [char] holding the byte [b]. *)
Definition char_val (P : platform) (b : byte) : Z :=
  if char_signed P && (128 <=? uchar b) then uchar b - 256 else uchar b.

(** Conversion of an integer to [size_t]. *)
Definition to_size_t (P : platform) (z : Z) : Z := z mod 2 ^ size_t_bits P.

(** Conversion to [unsigned int] / [uint32_t] / [useconds_t]. *)
Definition to_uint32 (z : Z) : Z := z mod 2 ^ 32.

(** The bytes of a buffer up to, and without, its first NUL. *)
Fixpoint cstr (buf : list byte) : list byte :=
  match buf with
  | [] => []
  | b :: rest => if Byte.eqb b x00 then [] else b :: cstr rest
  end.

Definition strlen (buf : list byte) : Z := Z.of_nat (List.length (cstr buf)).

(** [strcmp]: difference of the first two differing bytes, as unsigned
    chars; the end of a list counts as the terminator. *)
Fixpoint strcmp (a b : list byte) : Z :=
  match a, b with
  | [], [] => 0
  | [], y :: _ => 0 - uchar y
  | x :: _, [] => uchar x
  | x :: a', y :: b' =>
      if Byte.eqb x y
      then (if Byte.eqb x x00 then 0 else strcmp a' b')
      else uchar x - uchar y
  end.

(** A string literal as the bytes of the array that holds it, terminator
    included. *)
Definition lit (s : string) : list byte := list_byte_of_string s ++ [x00].

(** [snprintf(dst, size, ...)] of an already formatted text: at most
    [size - 1] bytes are kept, then the terminator. *)
Definition snprintf (size : nat) (text : string) : list byte :=
  firstn (size - 1) (list_byte_of_string text) ++ [x00].

(** Object representation of a 32-bit integer (little-endian, as on every
    Android ABI). *)
Definition int_bytes (z : Z) : list byte :=
  let u := z mod 2 ^ 32 in
  [ byte_of_Z u; byte_of_Z (u / 2 ^ 8);
    byte_of_Z (u / 2 ^ 16); byte_of_Z (u / 2 ^ 24) ].

(** The first [n] elements, with [n] an integer that may be far larger
    than the list. *)
Definition take {A : Type} (n : Z) (l : list A) : list A :=
  if Z.of_nat (List.length l) <=? n then l else firstn (Z.to_nat n) l.

(** [memcpy(dst + off, src, n)]: [None] when the copy would read past
    [src] or write past [dst]. *)
Definition memcpy (dst : list byte) (off : Z) (src : list byte) (n : Z)
  : option (list byte) :=
  if (0 <=? off) && (0 <=? n) && (n <=? Z.of_nat (List.length src))
     && (off + n <=? Z.of_nat (List.length dst))
  then Some (firstn (Z.to_nat off) dst ++ firstn (Z.to_nat n) src
             ++ skipn (Z.to_nat (off + n)) dst)
  else None.

End C.

(** ** System calls *)

Module Sys.

(** What [recv] delivers: an error (a negative return value), or the bytes
    written to the caller's buffer (their number is the return value). *)
Inductive recv_result : Type :=
| RecvError
| RecvData (data : list byte).

Inductive level : Type := LOG_W | LOG_E.

(** One entry per call, with its arguments and its result. *)
Inductive event : Type :=
| Socket (ret : Z)
| IgnoreSigpipe
| Connect (fd : Z) (path : string) (ret : Z)
| SetRcvTimeo (fd : Z) (sec : Z) (usec : Z) (ret : Z)
| Usleep (usec : Z)
| Close (fd : Z)
| Send (fd : Z) (data : list byte) (ret : Z)
| Recv (fd : Z) (len : Z) (waitall : bool) (res : recv_result)
| Sendmsg (fd : Z) (iov : list byte) (scm_rights : list Z) (ret : Z)
| Log (lvl : level) (msg : string).

Definition trace : Type := list event.

(** The kernel and the peer: each answer may depend on everything that
    happened before. *)
Record OS : Type := {
  os_socket : trace -> Z;
  os_connect : trace -> Z -> string -> Z;
  os_setsockopt : trace -> Z -> Z;
  os_send : trace -> Z -> list byte -> Z;
  os_recv : trace -> Z -> Z -> recv_result;
  os_sendmsg : trace -> Z -> list byte -> list Z -> Z;
  os_garbage : trace -> list byte
}.

(** State monad over the trace. *)
Definition M (A : Type) : Type := trace -> A * trace.

Definition ret {A : Type} (a : A) : M A := fun tr => (a, tr).

Definition bind {A B : Type} (m : M A) (k : A -> M B) : M B :=
  fun tr => let (a, tr') := m tr in k a tr'.

Definition emit (e : event) : M unit := fun tr => (tt, tr ++ [e]).

Definition socket (os : OS) : M Z :=
  fun tr => let r := os_socket os tr in (r, tr ++ [Socket r]).

Definition connect (os : OS) (fd : Z) (path : string) : M Z :=
  fun tr => let r := os_connect os tr fd path in
            (r, tr ++ [Connect fd path r]).

Definition setsockopt_rcvtimeo (os : OS) (fd sec usec : Z) : M Z :=
  fun tr => let r := os_setsockopt os tr fd in
            (r, tr ++ [SetRcvTimeo fd sec usec r]).

Definition send (os : OS) (fd : Z) (data : list byte) : M Z :=
  fun tr => let r := os_send os tr fd data in (r, tr ++ [Send fd data r]).

(** [recv(fd, buf, len, flags)]: the kernel never delivers more than [len]
    bytes. *)
Definition recv (os : OS) (fd len : Z) (waitall : bool) : M recv_result :=
  fun tr =>
    let r := match os_recv os tr fd len with
             | RecvError => RecvError
             | RecvData d => RecvData (C.take len d)
             end in
    (r, tr ++ [Recv fd len waitall r]).

Definition sendmsg (os : OS) (fd : Z) (iov : list byte) (fds : list Z)
  : M Z :=
  fun tr => let r := os_sendmsg os tr fd iov fds in
            (r, tr ++ [Sendmsg fd iov fds r]).

(** The indeterminate contents of an automatic array of [n] bytes that has
    not been written yet. *)
Definition uninit (os : OS) (n : nat) : M (list byte) :=
  fun tr => (firstn n (os_garbage os tr ++ repeat x00 n), tr).

Definition usleep (us : Z) : M unit := emit (Usleep us).
Definition close (fd : Z) : M unit := emit (Close fd).
Definition ALOGE (msg : string) : M unit := emit (Log LOG_E msg).
Definition ALOGW (msg : string) : M unit := emit (Log LOG_W msg).

(** The receive timeout in force on [fd] after a trace, in seconds: [None]
    is the default of a fresh socket, with which [recv] waits without
    limit. *)
Definition rcvtimeo_step (fd : Z) (t : option Z) (e : event) : option Z :=
  match e with
  | Socket r => if r =? fd then None else t
  | Close f => if f =? fd then None else t
  | SetRcvTimeo f sec _ r =>
      if (f =? fd) && (0 <=? r) then Some sec else t
  | _ => t
  end.

Definition rcvtimeo (tr : trace) (fd : Z) : option Z :=
  fold_left (rcvtimeo_step fd) tr None.

Definition is_send (e : event) : bool :=
  match e with
  | Send _ _ _ | Sendmsg _ _ _ _ => true
  | _ => false
  end.

Definition no_send (evs : trace) : bool :=
  forallb (fun e => negb (is_send e)) evs.

Definition is_rcvtimeo (e : event) : bool :=
  match e with
  | SetRcvTimeo _ _ _ _ => true
  | _ => false
  end.

(** Every call a computation makes satisfies [ok]. *)
Definition only (ok : event -> bool) {A : Type} (m : M A) : Prop :=
  forall tr, exists evs, snd (m tr) = tr ++ evs /\ forallb ok evs = true.

Definition not_send (e : event) : bool := negb (is_send e).
Definition not_rcvtimeo (e : event) : bool := negb (is_rcvtimeo e).

(** A call that acts on a socket (logging and sleeping do not). *)
Definition is_socket_op (e : event) : bool :=
  match e with
  | Log _ _ | Usleep _ | IgnoreSigpipe => false
  | _ => true
  end.

Definition is_recv_on (fd : Z) (e : event) : bool :=
  match e with
  | Recv f _ _ _ => f =? fd
  | _ => false
  end.

Definition is_close_of (fd : Z) (e : event) : bool :=
  match e with
  | Close f => f =? fd
  | _ => false
  end.

Definition not_recv (e : event) : bool :=
  match e with
  | Recv _ _ _ _ => false
  | _ => true
  end.

(** A call that neither creates nor closes a descriptor. *)
Definition neutral (e : event) : bool :=
  match e with
  | Socket _ | Close _ => false
  | _ => true
  end.

Fixpoint remove_first (f : Z) (l : list Z) : list Z :=
  match l with
  | [] => []
  | x :: rest => if x =? f then rest else x :: remove_first f rest
  end.

(** Bookkeeping of descriptors: [socket] adds the descriptor it returns,
    [close] takes its argument away.  The state is [None] from the moment a
    descriptor is closed that is not open. *)
Definition live_step (st : option (list Z)) (e : event) : option (list Z) :=
  match st with
  | None => None
  | Some l =>
      match e with
      | Socket r => Some (if 0 <=? r then r :: l else l)
      | Close f => if existsb (Z.eqb f) l then Some (remove_first f l) else None
      | _ => Some l
      end
  end.

(** The descriptors open after [evs], when [st] were open before. *)
Definition live_after (st : option (list Z)) (evs : trace)
  : option (list Z) :=
  fold_left live_step evs st.

Definition live (tr : trace) : option (list Z) := live_after (Some []) tr.

(** The descriptors a channel slot [fd] stands for: [fd] itself when it is
    not negative. *)
Definition owned (fd : Z) : list Z := if 0 <=? fd then [fd] else [].

End Sys.

Declare Scope sys_scope.
Notation "x <- m ;; k" := (Sys.bind m (fun x => k))
  (at level 61, m at next level, right associativity) : sys_scope.
Notation "m ;; k" := (Sys.bind m (fun _ => k))
  (at level 61, right associativity) : sys_scope.

(** ** [modules/sharebuffer/sharebuffer.cpp] *)

Module Sharebuffer.
Import Sys.
Local Open Scope sys_scope.

(** [SFDROID_ROOT "/gralloc_buffer_handle"] with [SFDROID_ROOT] being
    ["/tmp/sfdroid/"]. *)
Definition SHM_BUFFER_HANDLE_FILE : string :=
  "/tmp/sfdroid//gralloc_buffer_handle".

Record buffer_info_t : Type := {
  width : Z;
  height : Z;
  stride : Z;
  pixel_format : Z
}.

(** [native_handle_t] of [cutils/native_handle.h]: three [int]s followed by
    the flexible array [data], which holds the [numFds] descriptors first
    and the [numInts] integers after them. *)
Record native_handle_t : Type := {
  version : Z;
  numFds : Z;
  numInts : Z;
  data : list Z
}.

Definition sizeof_int : Z := 4.
Definition sizeof_buffer_info_t : Z := 16.
Definition sizeof_native_handle_t : Z := 12.

Definition info_bytes (i : buffer_info_t) : list byte :=
  C.int_bytes (width i) ++ C.int_bytes (height i)
  ++ C.int_bytes (stride i) ++ C.int_bytes (pixel_format i).

Definition header_bytes (h : native_handle_t) : list byte :=
  C.int_bytes (version h) ++ C.int_bytes (numFds h)
  ++ C.int_bytes (numInts h).

(** The memory [handle] points to. *)
Definition handle_bytes (h : native_handle_t) : list byte :=
  header_bytes h ++ flat_map C.int_bytes (data h).

Definition connect_to_renderer (os : OS) : M Z :=
  fd <- socket os ;;
  if fd <? 0 then
    ALOGE "error creating socket stream" ;;
    ret (-1)
  else
    r <- connect os fd SHM_BUFFER_HANDLE_FILE ;;
    if r <? 0 then
      ALOGE "error connecting to renderer" ;;
      close fd ;;
      ret (-1)
    else
      ret fd.

Definition buffer_size (h : native_handle_t) : Z :=
  C.to_uint32 (sizeof_buffer_info_t + sizeof_native_handle_t
               + sizeof_int * (numFds h + numInts h)).

Definition handle_size (h : native_handle_t) : Z :=
  C.to_uint32 (sizeof_native_handle_t
               + sizeof_int * (numFds h + numInts h)).

(** The bytes of [message_buffer] after the two [memcpy]s; [None] when a
    copy leaves the source or the destination. *)
Definition message_buffer (h : native_handle_t) (info : buffer_info_t)
  : option (list byte) :=
  let fresh := repeat x00 (Z.to_nat (buffer_size h)) in
  match C.memcpy fresh 0 (info_bytes info) sizeof_buffer_info_t with
  | None => None
  | Some m1 =>
      C.memcpy m1 sizeof_buffer_info_t (handle_bytes h) (handle_size h)
  end.

Definition sizeof_long (P : C.platform) : Z := if C.lp64 P then 8 else 4.

(** [struct cmsghdr] is a [size_t] and two [int]s. *)
Definition sizeof_cmsghdr (P : C.platform) : Z := if C.lp64 P then 16 else 12.

(** The macros of [sys/socket.h], in [size_t] arithmetic:
    [CMSG_ALIGN(len)] is [(len + sizeof(long) - 1) & ~(sizeof(long) - 1)],
    [CMSG_SPACE(len)] is [CMSG_ALIGN(sizeof(struct cmsghdr)) +
    CMSG_ALIGN(len)]. *)
Definition CMSG_ALIGN (P : C.platform) (len : Z) : Z :=
  Z.land (C.to_size_t P (len + sizeof_long P - 1))
         (Z.lnot (sizeof_long P - 1)).

Definition CMSG_SPACE (P : C.platform) (len : Z) : Z :=
  C.to_size_t P (CMSG_ALIGN P (sizeof_cmsghdr P) + CMSG_ALIGN P len).

(** The descriptors the kernel takes from the control message.  The buffer
    of [CMSG_SPACE(sizeof(int) * numFds)] bytes is cleared, [cmsg_len] is
    set to that same [CMSG_SPACE] value, and the loop over [i < numFds]
    stores [data[i]] in slot [i]; the kernel counts
    [(cmsg_len - CMSG_ALIGN(sizeof(struct cmsghdr))) / sizeof(int)]
    descriptors, so the slots the loop did not reach are sent as descriptor
    0.  [None] when [CMSG_FIRSTHDR] is the null pointer, or the loop reads
    past [data] or writes past the buffer. *)
Definition ancillary_fds (P : C.platform) (h : native_handle_t)
  : option (list Z) :=
  let space := CMSG_SPACE P (C.to_size_t P (sizeof_int * numFds h)) in
  let slots := (space - CMSG_ALIGN P (sizeof_cmsghdr P)) / sizeof_int in
  if (sizeof_cmsghdr P <=? space)
     && (numFds h <=? Z.of_nat (List.length (data h)))
     && (numFds h <=? slots)
  then Some (C.take (numFds h) (data h)
             ++ repeat 0 (Z.to_nat (slots - Z.max 0 (numFds h))))
  else None.

(** Returns what [sendmsg] returns; [None] stands for an access outside an
    object. *)
Definition send_native_handle (P : C.platform) (os : OS) (fd : Z)
    (handle : native_handle_t) (w h s pf : Z) : M (option Z) :=
  let info := {| width := w; height := h; stride := s;
                 pixel_format := pf |} in
  match message_buffer handle info, ancillary_fds P handle with
  | Some msg, Some fds =>
      r <- sendmsg os fd msg fds ;;
      ret (Some r)
  | _, _ => ret None
  end.

(** [failed] is the caller's variable behind the pointer: [None] while it
    has never been assigned.  The result is the return value and the new
    content of [failed]. *)
Definition recv_status (os : OS) (fd : Z) (failed : option Z)
  : M (Z * option Z) :=
  stack <- uninit os 3 ;;
  r <- recv os fd 3 true ;;
  match r with
  | RecvError => ret (-1, failed)
  | RecvData d =>
      let message_buffer := d ++ skipn (List.length d) stack in
      if negb (Byte.eqb (nth 2 message_buffer x00) x00) then
        ALOGE "message_buffer is not a 0 terminated string" ;;
        ret (-1, failed)
      else if C.strcmp message_buffer (C.lit "OK") =? 0 then
        ret (0, Some 0)
      else
        (if negb (C.strcmp message_buffer (C.lit "FA") =? 0)
         then ALOGE "unknown status"
         else ret tt) ;;
        ret (-1, Some 1)
  end.

Record private_module_t : Type := { fd_renderer : Z }.

Definition exit_error (fd : Z) : M (option (Z * private_module_t)) :=
  close fd ;;
  ret (Some (-1, {| fd_renderer := -1 |})).

(** Returns the return value and the module state; [None] as in
    [send_native_handle]. *)
Definition fb_post (P : C.platform) (os : OS) (m : private_module_t)
    (buffer : native_handle_t) (w h s pf : Z)
  : M (option (Z * private_module_t)) :=
  fd <- (if fd_renderer m <? 0 then
           ALOGW "connecting to renderer" ;;
           connect_to_renderer os
         else ret (fd_renderer m)) ;;
  if 0 <=? fd then
    sent <- send_native_handle P os fd buffer w h s pf ;;
    match sent with
    | None => ret None
    | Some r =>
        if r <? 0 then
          ALOGW "sending buffer failed" ;;
          exit_error fd
        else
          st <- recv_status os fd None ;;
          if fst st <? 0 then
            ALOGW "recv_status failed" ;;
            exit_error fd
          else
            ret (Some (0, {| fd_renderer := fd |}))
    end
  else
    ret (Some (0, {| fd_renderer := fd |})).

(** The words of [m->info.reserved] that [fb_setUpdateRect] assigns. *)
Record update_rect : Type := {
  reserved0 : Z;
  reserved1 : Z;
  reserved2 : Z
}.

(** [(uint16_t)lo | ((uint32_t)hi << 16)] *)
Definition pack16 (lo hi : Z) : Z :=
  Z.lor (lo mod 2 ^ 16) (C.to_uint32 (Z.shiftl (C.to_uint32 hi) 16)).

(** [EINVAL] is the constant of [errno.h].  The result is the return value
    and the three words; the function touches nothing else. *)
Definition fb_setUpdateRect (EINVAL : Z) (reserved : update_rect)
    (l t w h : Z) : Z * update_rect :=
  if (Z.lor w h <=? 0) || (Z.lor l t <? 0) then (- EINVAL, reserved)
  else
    (0, {| reserved0 := 0x54445055;
           reserved1 := pack16 l t;
           reserved2 := pack16 (l + w) (t + h) |}).

End Sharebuffer.

(** ** [modules/sfdroid_sensors/sfdroid_sensors.c] *)

Module Sfdroid_sensors.
Import Sys.
Local Open Scope sys_scope.

Definition SENSORS_HANDLE_FILE : string := "/tmp/sfdroid/sensors_handle".

Definition MAX_NUM_SENSORS : Z := 5.

Record SensorPoll : Type := { fd : Z; delay : Z }.

Definition set_fd (ctl : SensorPoll) (v : Z) : SensorPoll :=
  {| fd := v; delay := delay ctl |}.

(** Decimal text of an integer, as [%d] and [%lld] print it. *)
Definition dec (z : Z) : string := NilZero.string_of_int (Z.to_int z).

Section Device.

Variable P : C.platform.

(** The type [float], and [sscanf(buff, "acceleration:%g:%g:%g:%lld",
    ...)] of the C library: [Some] of the four converted values when the
    call returns 4, [None] otherwise. *)
Variable float : Type.
Variable sscanf_acceleration :
  list byte -> option (float * float * float * Z).

Variable os : OS.

Definition ID_BASE : Z := C.SENSORS_HANDLE_BASE P.
Definition ID_ACCELERATION : Z := ID_BASE + 0.
Definition ID_MAGNETIC_FIELD : Z := ID_BASE + 1.
Definition ID_ORIENTATION : Z := ID_BASE + 2.
Definition ID_TEMPERATURE : Z := ID_BASE + 3.
Definition ID_PROXIMITY : Z := ID_BASE + 4.

Definition _sensorIds : list (string * Z) :=
  [ ("acceleration", ID_ACCELERATION);
    ("magnetic-field", ID_MAGNETIC_FIELD);
    ("orientation", ID_ORIENTATION);
    ("temperature", ID_TEMPERATURE);
    ("proximity", ID_PROXIMITY) ]%string.

Definition _sensorIdToName (id : Z) : string :=
  match find (fun e => id =? snd e) _sensorIds with
  | Some e => fst e
  | None => "<UNKNOWN>"
  end.

(** The fields of [sensors_event_t] that [poll__poll] assigns. *)
Record sensors_event_t : Type := {
  sensor : Z;
  version : Z;
  acceleration_x : float;
  acceleration_y : float;
  acceleration_z : float;
  timestamp : Z
}.

Definition connect_to_sfdroid : M Z :=
  s <- socket os ;;
  if s <? 0 then
    ALOGE "error creating socket stream" ;;
    ret (-1)
  else
    emit IgnoreSigpipe ;;
    r <- connect os s SENSORS_HANDLE_FILE ;;
    if r <? 0 then
      ALOGE "error connecting to sfdroidsensors" ;;
      usleep 100000 ;;
      close s ;;
      ret (-1)
    else
      t <- setsockopt_rcvtimeo os s 1 0 ;;
      (if t <? 0
       then ALOGE "failed to set timeout on sensor socket"
       else ret tt) ;;
      ret s.

(** [if (ctl->fd < 0) ctl->fd = connect_to_sfdroid();] *)
Definition open_connection (ctl : SensorPoll) : M SensorPoll :=
  if fd ctl <? 0 then
    s <- connect_to_sfdroid ;;
    ret (set_fd ctl s)
  else ret ctl.

(** How one pass through the body of the [for] loop ends. *)
Inductive slot_result : Type :=
| Produced (e : sensors_event_t)
| Returned (r : Z) (ctl : SensorPoll)
| OutOfBounds.

(** [close(ctl->fd); ctl->fd = -1; return r;] *)
Definition drop_channel (ctl : SensorPoll) (r : Z) : M slot_result :=
  close (fd ctl) ;;
  ret (Returned r (set_fd ctl (-1))).

(** The third argument of the second [recv]: [syncbuf[0]], a plain
    [char], converted to [size_t]. *)
Definition payload_request (syncbuf0 : byte) : Z :=
  C.to_size_t P (C.char_val P syncbuf0).

Definition sizeof_buff : Z := 256.

(** First half of the loop body: the delay and the two [send]s of the
    request.  [Some r] when the body has returned, [None] when it goes
    on to the reply; in both cases with the content of [syncbuf[0]]. *)
Definition send_request (ctl : SensorPoll) (i : Z)
  : M (option slot_result * byte) :=
  usleep (C.to_uint32 (Z.quot (delay ctl) 1000)) ;;
  let command := C.snprintf 128 "get:accelerometer" in
  let syncbuf0 := C.byte_of_Z (C.strlen command + 1) in
  r <- send os (fd ctl) [syncbuf0] ;;
  if r <? 0 then
    ALOGE "when sending sync byte" ;;
    res <- drop_channel ctl i ;;
    ret (Some res, syncbuf0)
  else
    r <- send os (fd ctl) (C.take (C.strlen command + 1) command) ;;
    if r <? 0 then
      ALOGE "when sending command" ;;
      res <- drop_channel ctl i ;;
      ret (Some res, syncbuf0)
    else
      ret (None, syncbuf0).

(** Second half of the loop body: the two [recv]s, the terminator and
    [sscanf].  [syncbuf0] is what [syncbuf[0]] holds on entry. *)
Definition recv_reply (ctl : SensorPoll) (i : Z) (syncbuf0 : byte)
  : M slot_result :=
  r <- recv os (fd ctl) 1 false ;;
  match r with
  | RecvError =>
      ALOGE "recv failed" ;;
      drop_channel ctl i
  | RecvData d1 =>
      let syncbuf0 := hd syncbuf0 d1 in
      r <- recv os (fd ctl) (payload_request syncbuf0) false ;;
      match r with
      | RecvError =>
          ALOGE "recv failed" ;;
          drop_channel ctl i
      | RecvData d =>
          let len := Z.of_nat (List.length d) in
          (* [recv] has stored [len] bytes in [buff]; then
             [buff[len] = 0] *)
          if sizeof_buff <=? len then ret OutOfBounds
          else
            let buff := d ++ [x00] in
            match sscanf_acceleration (C.cstr buff) with
            | Some (x, y, z, t) =>
                ret (Produced
                       {| sensor := ID_ACCELERATION;
                          version := C.sizeof_sensors_event_t P;
                          acceleration_x := x;
                          acceleration_y := y;
                          acceleration_z := z;
                          timestamp := t |})
            | None =>
                ALOGE "unsupported command" ;;
                ret (Returned i ctl)
            end
      end
  end.

Definition poll_slot (ctl : SensorPoll) (i : Z) : M slot_result :=
  q <- send_request ctl i ;;
  match fst q with
  | Some res => ret res
  | None => recv_reply ctl i (snd q)
  end.

(** The [for] loop with [n] slots left, [i] being the index of the next
    one; [data] are the records stored so far.  The result is the return
    value, the records stored and the device state; [None] stands for an
    access outside [buff]. *)
Fixpoint poll_loop (n : nat) (i count : Z) (ctl : SensorPoll)
    (data : list sensors_event_t)
  : M (option (Z * list sensors_event_t * SensorPoll)) :=
  match n with
  | O => ret (Some (count, data, ctl))
  | S n' =>
      r <- poll_slot ctl i ;;
      match r with
      | Produced e => poll_loop n' (i + 1) count ctl (data ++ [e])
      | Returned v ctl' => ret (Some (v, data, ctl'))
      | OutOfBounds => ret None
      end
  end.

Definition poll__poll (ctl : SensorPoll) (count : Z)
  : M (option (Z * list sensors_event_t * SensorPoll)) :=
  ctl <- open_connection ctl ;;
  if 0 <=? fd ctl then
    poll_loop (Z.to_nat count) 0 count ctl []
  else
    (* sfdroid not up *)
    ret (Some (0, [], ctl)).

(** The two [send]s of [poll__activate] and [poll__setDelay]. *)
Definition send_command (ctl : SensorPoll) (command : list byte)
  : M (Z * SensorPoll) :=
  let syncbuf0 := C.byte_of_Z (C.strlen command + 1) in
  r <- send os (fd ctl) [syncbuf0] ;;
  if r <? 0 then
    ALOGE "when sending sync byte" ;;
    close (fd ctl) ;;
    ret (-1, set_fd ctl (-1))
  else
    r <- send os (fd ctl) (C.take (C.strlen command + 1) command) ;;
    if r <? 0 then
      close (fd ctl) ;;
      ALOGE "when sending command" ;;
      ret (-1, set_fd ctl (-1))
    else
      (* falls through to [return 0] *)
      ret (0, ctl).

Definition poll__activate (ctl : SensorPoll) (handle enabled : Z)
  : M (Z * SensorPoll) :=
  ctl <- open_connection ctl ;;
  if handle =? ID_ACCELERATION then
    if 0 <=? fd ctl then
      send_command ctl
        (C.snprintf 128
           ("set:" ++ _sensorIdToName handle ++ ":"
            ++ dec (if enabled =? 0 then 0 else 1)))
    else
      (* sfdroid not up yet *)
      ret (0, ctl)
  else ret (-1, ctl).

Definition poll__setDelay (ctl : SensorPoll) (handle ns : Z)
  : M (Z * SensorPoll) :=
  ctl <- open_connection ctl ;;
  let ctl := {| fd := fd ctl; delay := ns |} in
  if handle =? ID_ACCELERATION then
    if 0 <=? fd ctl then
      send_command ctl
        (C.snprintf 128
           ("setDelay:" ++ _sensorIdToName handle ++ ":" ++ dec ns))
    else
      (* sfdroid not up yet *)
      ret (0, ctl)
  else ret (-1, ctl).

(** [ID_CHECK(x)], that is [(unsigned)((x)-ID_BASE) < MAX_NUM_SENSORS]. *)
Definition ID_CHECK (x : Z) : bool :=
  C.to_uint32 (x - ID_BASE) <? MAX_NUM_SENSORS.

(** [name] is [None] for the null pointer, and the bytes it points to
    otherwise. *)
Definition _sensorIdFromName (name : option (list byte)) : Z :=
  match name with
  | None => -1
  | Some s =>
      match find (fun e => C.strcmp s (C.lit (fst e)) =? 0) _sensorIds with
      | Some e => snd e
      | None => -1
      end
  end.

(** [free(ctl)] ends the device; the return value is left. *)
Definition poll__close (ctl : SensorPoll) : M Z :=
  (if 0 <=? fd ctl then close (fd ctl) else ret tt) ;;
  ret 0.

(** [SENSORS_HARDWARE_POLL] is the name defined in [hardware/sensors.h],
    [EINVAL] the constant of [errno.h].  The result is the status and, on
    success, the state of the new device ([memset] to 0, then [fd = -1]). *)
Definition open_sensors (SENSORS_HARDWARE_POLL : string) (EINVAL : Z)
    (name : list byte) : Z * option SensorPoll :=
  if C.strcmp name (C.lit SENSORS_HARDWARE_POLL) =? 0
  then (0, Some {| fd := -1; delay := 0 |})
  else (- EINVAL, None).

End Device.

Arguments Produced {float} e.
Arguments Returned {float} r ctl.
Arguments OutOfBounds {float}.
Arguments drop_channel {float} ctl r.
Arguments send_request {float} os ctl i.
Arguments recv_reply P {float} sscanf_acceleration os ctl i syncbuf0.
Arguments poll_slot P {float} sscanf_acceleration os ctl i.
Arguments poll_loop P {float} sscanf_acceleration os n i count ctl data.
Arguments poll__poll P {float} sscanf_acceleration os ctl count.

End Sfdroid_sensors.

(** ** Concrete targets, peers and inputs on which the model is run *)

Module Scenario.
Import Sys.

(** 32-bit ARM EABI: plain [char] is unsigned. *)
Definition arm : C.platform :=
  {| C.char_signed := false; C.lp64 := false;
     C.SENSORS_HANDLE_BASE := 0; C.sizeof_sensors_event_t := 104 |}.

(** 64-bit ARM: plain [char] is unsigned, [long] and [size_t] have 64
    bits. *)
Definition arm64 : C.platform :=
  {| C.char_signed := false; C.lp64 := true;
     C.SENSORS_HANDLE_BASE := 0; C.sizeof_sensors_event_t := 104 |}.

(** 32-bit x86: plain [char] is signed. *)
Definition x86 : C.platform :=
  {| C.char_signed := true; C.lp64 := false;
     C.SENSORS_HANDLE_BASE := 0; C.sizeof_sensors_event_t := 104 |}.

(** A stand-in for the C library's [sscanf] with the acceleration format:
    it accepts the replies made of the word [acceleration] and four
    decimal integers separated by colons, and nothing else.  The three
    [float]s are kept as the integers they denote. *)
Fixpoint fields (l cur : list byte) : list (list byte) :=
  match l with
  | [] => [rev cur]
  | b :: rest =>
      if Byte.eqb b ":"%byte then rev cur :: fields rest []
      else fields rest (b :: cur)
  end.

Fixpoint digits (l : list byte) (acc : Z) : option Z :=
  match l with
  | [] => Some acc
  | b :: rest =>
      let v := C.uchar b - 48 in
      if (0 <=? v) && (v <=? 9) then digits rest (10 * acc + v) else None
  end.

Definition integer (l : list byte) : option Z :=
  match l with
  | [] => None
  | b :: rest =>
      if Byte.eqb b "-"%byte then
        match rest with
        | [] => None
        | _ => option_map Z.opp (digits rest 0)
        end
      else digits l 0
  end.

Definition sscanf_integers (s : list byte) : option (Z * Z * Z * Z) :=
  match fields s [] with
  | [k; a; b; c; d] =>
      if list_eq_dec Byte.byte_eq_dec k (list_byte_of_string "acceleration")
      then match integer a, integer b, integer c, integer d with
           | Some x, Some y, Some z, Some t => Some (x, y, z, t)
           | _, _, _, _ => None
           end
      else None
  | _ => None
  end.

Definition is_recv (e : event) : bool :=
  match e with
  | Recv _ _ _ _ => true
  | _ => false
  end.

(** A kernel and peer that hand out [sock] as the new descriptor, answer
    [connect] with [conn], accept every write in full, and answer the
    [k]-th [recv] of a run with the [k]-th entry of [replies] (an error
    once they are used up). *)
Definition peer (sock conn : Z) (replies : list recv_result) : OS :=
  {| os_socket := fun _ => sock;
     os_connect := fun _ _ _ => conn;
     os_setsockopt := fun _ _ => 0;
     os_send := fun _ _ d => Z.of_nat (List.length d);
     os_recv := fun tr _ _ =>
                  nth (List.length (filter is_recv tr)) replies RecvError;
     os_sendmsg := fun _ _ d _ => Z.of_nat (List.length d);
     os_garbage := fun _ => [] |}.

(** A peer that announces a reply of 40 bytes and delivers 23. *)
Definition short_reply_peer : OS :=
  peer 3 0 [ RecvData [C.byte_of_Z 40];
             RecvData (list_byte_of_string "acceleration:1:2:3:1000") ].

(** A peer that sends the prefix byte 128 followed by 300 bytes. *)
Definition long_reply_peer : OS :=
  peer 3 0 [ RecvData [x80]; RecvData (repeat "a"%byte 300) ].

(** A peer that has closed the connection ([recv] delivers nothing) while
    the bytes O K NUL are what the stack holds where [recv_status] puts its
    buffer. *)
Definition closed_peer_stale_ok : OS :=
  {| os_socket := fun _ => 3;
     os_connect := fun _ _ _ => 0;
     os_setsockopt := fun _ _ => 0;
     os_send := fun _ _ d => Z.of_nat (List.length d);
     os_recv := fun _ _ _ => RecvData [];
     os_sendmsg := fun _ _ d _ => Z.of_nat (List.length d);
     os_garbage := fun _ => C.lit "OK" |}.

(** A peer whose end of the connection is gone: every write fails. *)
Definition reset_peer : OS :=
  {| os_socket := fun _ => 3;
     os_connect := fun _ _ _ => 0;
     os_setsockopt := fun _ _ => 0;
     os_send := fun _ _ _ => -1;
     os_recv := fun _ _ _ => RecvError;
     os_sendmsg := fun _ _ _ _ => -1;
     os_garbage := fun _ => [] |}.

(** Nobody listens on the socket path. *)
Definition peer_absent : OS := peer 3 (-1) [].

Definition framed (payload : string) : list recv_result :=
  [ RecvData [C.byte_of_Z (Z.of_nat (String.length payload))];
    RecvData (list_byte_of_string payload) ].

(** A buffer handle with one descriptor and no integers. *)
Definition handle_1_0 : Sharebuffer.native_handle_t :=
  {| Sharebuffer.version := 12; Sharebuffer.numFds := 1;
     Sharebuffer.numInts := 0; Sharebuffer.data := [7] |}.

(** The integers of a handle: what follows the descriptors in [data]. *)
Definition handle_ints (h : Sharebuffer.native_handle_t) : list Z :=
  skipn (Z.to_nat (Sharebuffer.numFds h)) (Sharebuffer.data h).

(** The outbound message as the specification words it: the four
    descriptor fields, the structural header, the [numInts] integers. *)
Definition message_as_specified (h : Sharebuffer.native_handle_t)
    (info : Sharebuffer.buffer_info_t) : list byte :=
  Sharebuffer.info_bytes info ++ Sharebuffer.header_bytes h
  ++ flat_map C.int_bytes (handle_ints h).

Definition info_1234 : Sharebuffer.buffer_info_t :=
  {| Sharebuffer.width := 1; Sharebuffer.height := 2;
     Sharebuffer.stride := 3; Sharebuffer.pixel_format := 4 |}.

(** A buffer handle with one descriptor and two integers. *)
Definition handle_1_2 : Sharebuffer.native_handle_t :=
  {| Sharebuffer.version := 12; Sharebuffer.numFds := 1;
     Sharebuffer.numInts := 2; Sharebuffer.data := [7; 640; 480] |}.

End Scenario.

(** * Properties *)

(** ** Bytes and C strings *)

Module CFacts.
Import C.

Lemma uchar_inj (a b : byte) : uchar a = uchar b -> a = b.
Proof.
  unfold uchar. intros H. apply N2Z.inj in H.
  assert (E : Byte.of_N (Byte.to_N a) = Byte.of_N (Byte.to_N b))
    by (rewrite H; reflexivity).
  rewrite !Byte.of_to_N in E. congruence.
Qed.

Lemma eqb_false_uchar (a b : byte) :
  Byte.eqb a b = false -> uchar a - uchar b <> 0.
Proof.
  intros E H. assert (a = b) by (apply uchar_inj; lia). subst b.
  rewrite Byte.byte_dec_lb in E by reflexivity. discriminate.
Qed.

Lemma uchar_range (b : byte) : 0 <= uchar b < 256.
Proof.
  unfold uchar. pose proof (Byte.to_N_bounded b) as H.
  split; [apply N2Z.is_nonneg|]. apply N.lt_succ_r in H.
  change 256 with (Z.of_N 256). apply N2Z.inj_lt. exact H.
Qed.


Lemma take_all {A : Type} (n : Z) (l : list A) :
  Z.of_nat (List.length l) <= n -> take n l = l.
Proof.
  intros H. unfold take.
  destruct (Z.leb_spec (Z.of_nat (List.length l)) n); [reflexivity | lia].
Qed.

Lemma take_length {A : Type} (n : Z) (l : list A) :
  0 <= n -> Z.of_nat (List.length (take n l)) <= n.
Proof.
  intros H. unfold take.
  destruct (Z.leb_spec (Z.of_nat (List.length l)) n); [assumption|].
  rewrite List.length_firstn. lia.
Qed.

Lemma take_firstn {A : Type} (n : Z) (l : list A) :
  take n l = firstn (Z.to_nat n) l.
Proof.
  unfold take.
  destruct (Z.leb_spec (Z.of_nat (List.length l)) n); [|reflexivity].
  symmetry. apply firstn_all2. lia.
Qed.

Lemma int_bytes_length (z : Z) : List.length (int_bytes z) = 4%nat.
Proof. reflexivity. Qed.

Lemma flat_map_int_bytes_length (l : list Z) :
  List.length (flat_map int_bytes l) = (4 * List.length l)%nat.
Proof.
  induction l as [|z l IH]; [reflexivity|].
  cbn [flat_map]. rewrite List.length_app, IH, int_bytes_length.
  cbn [List.length]. lia.
Qed.

End CFacts.

(** ** Calls made by a computation *)

Module SysFacts.
Import Sys.

Section Only.
Variable ok : event -> bool.

Lemma only_ret {A : Type} (a : A) : only ok (ret a).
Proof.
  intros tr. exists []. rewrite app_nil_r. split; reflexivity.
Qed.

Lemma only_bind {A B : Type} (m : M A) (k : A -> M B) :
  only ok m -> (forall a, only ok (k a)) -> only ok (bind m k).
Proof.
  intros Hm Hk tr. unfold bind.
  destruct (Hm tr) as (e1 & E1 & F1).
  destruct (m tr) as [a tr1]. cbn [snd] in E1. subst tr1.
  destruct (Hk a (tr ++ e1)) as (e2 & E2 & F2).
  exists (e1 ++ e2). rewrite E2, app_assoc. split; [reflexivity|].
  rewrite forallb_app, F1, F2. reflexivity.
Qed.

Lemma only_emit (e : event) : ok e = true -> only ok (emit e).
Proof.
  intros H tr. exists [e]. split; [reflexivity|].
  cbn. rewrite H. reflexivity.
Qed.

Lemma only_if {A : Type} (c : bool) (m1 m2 : M A) :
  only ok m1 -> only ok m2 -> only ok (if c then m1 else m2).
Proof. destruct c; auto. Qed.

Lemma only_socket (os : OS) :
  (forall r, ok (Socket r) = true) -> only ok (socket os).
Proof.
  intros H tr. eexists [_]. split; [reflexivity|].
  cbn. rewrite H. reflexivity.
Qed.

Lemma only_connect (os : OS) (fd : Z) (path : string) :
  (forall r, ok (Connect fd path r) = true) ->
  only ok (connect os fd path).
Proof.
  intros H tr. eexists [_]. split; [reflexivity|].
  cbn. rewrite H. reflexivity.
Qed.

Lemma only_setsockopt (os : OS) (fd sec usec : Z) :
  (forall r, ok (SetRcvTimeo fd sec usec r) = true) ->
  only ok (setsockopt_rcvtimeo os fd sec usec).
Proof.
  intros H tr. eexists [_]. split; [reflexivity|].
  cbn. rewrite H. reflexivity.
Qed.

Lemma only_recv (os : OS) (fd len : Z) (waitall : bool) :
  (forall r, ok (Recv fd len waitall r) = true) ->
  only ok (recv os fd len waitall).
Proof.
  intros H tr. eexists [_]. split; [reflexivity|].
  cbn. rewrite H. reflexivity.
Qed.

Lemma only_sendmsg (os : OS) (fd : Z) (iov : list byte) (fds : list Z) :
  (forall r, ok (Sendmsg fd iov fds r) = true) ->
  only ok (sendmsg os fd iov fds).
Proof.
  intros H tr. eexists [_]. split; [reflexivity|].
  cbn. rewrite H. reflexivity.
Qed.

Lemma only_uninit (os : OS) (n : nat) : only ok (uninit os n).
Proof.
  intros tr. exists []. rewrite app_nil_r. split; reflexivity.
Qed.

End Only.

Ltac only_step :=
  lazymatch goal with
  | |- only _ (bind _ _) => apply only_bind; [ | intros ? ]
  | |- only _ (ret _) => apply only_ret
  | |- only _ (uninit _ _) => apply only_uninit
  | |- only _ (emit _) => apply only_emit; reflexivity
  | |- only _ (socket _) => apply only_socket; intros; reflexivity
  | |- only _ (connect _ _ _) => apply only_connect; intros; reflexivity
  | |- only _ (setsockopt_rcvtimeo _ _ _ _) =>
      apply only_setsockopt; intros; reflexivity
  | |- only _ (recv _ _ _ _) => apply only_recv; intros; reflexivity
  | |- only _ (sendmsg _ _ _ _) => apply only_sendmsg; intros; reflexivity
  | |- only _ (match ?x with _ => _ end) => destruct x
  end.

Lemma rcvtimeo_snoc (tr : trace) (fd : Z) (e : event) :
  rcvtimeo (tr ++ [e]) fd = rcvtimeo_step fd (rcvtimeo tr fd) e.
Proof. unfold rcvtimeo. rewrite fold_left_app. reflexivity. Qed.

End SysFacts.

(** ** The buffer relay *)

Module SharebufferFacts.
Import Sys Sharebuffer.

(** [connect_to_renderer] returns -1 or the descriptor [socket] gave, and
    performs one of three fixed sequences of calls. *)
Lemma connect_to_renderer_cases (os : OS) (tr : trace) :
  let s := os_socket os tr in
  let c := os_connect os (tr ++ [Socket s]) s SHM_BUFFER_HANDLE_FILE in
  connect_to_renderer os tr =
    if s <? 0 then
      (-1, tr ++ [Socket s; Log LOG_E "error creating socket stream"])
    else if c <? 0 then
      (-1, tr ++ [Socket s; Connect s SHM_BUFFER_HANDLE_FILE c;
                  Log LOG_E "error connecting to renderer"; Close s])
    else (s, tr ++ [Socket s; Connect s SHM_BUFFER_HANDLE_FILE c]).
Proof.
  cbv zeta.
  unfold connect_to_renderer, bind, socket, connect, ALOGE, close, emit, ret.
  destruct (os_socket os tr <? 0) eqn:Es.
  - rewrite <- app_assoc. reflexivity.
  - destruct (os_connect os (tr ++ [Socket (os_socket os tr)])
                (os_socket os tr) SHM_BUFFER_HANDLE_FILE <? 0) eqn:Ec.
    + rewrite <- !app_assoc. reflexivity.
    + rewrite <- !app_assoc. reflexivity.
Qed.

Lemma connect_to_renderer_result (os : OS) (tr : trace) :
  exists evs,
    snd (connect_to_renderer os tr) = tr ++ evs
    /\ no_send evs = true
    /\ existsb is_rcvtimeo evs = false
    /\ (fst (connect_to_renderer os tr) < 0 ->
        fst (connect_to_renderer os tr) = -1)
    /\ (0 <= fst (connect_to_renderer os tr) ->
        rcvtimeo (tr ++ evs) (fst (connect_to_renderer os tr)) = None).
Proof.
  rewrite connect_to_renderer_cases. cbv zeta.
  destruct (os_socket os tr <? 0) eqn:Es.
  - eexists. cbn [fst snd]. repeat split; try reflexivity. lia.
  - destruct (os_connect os (tr ++ [Socket (os_socket os tr)])
                (os_socket os tr) SHM_BUFFER_HANDLE_FILE <? 0) eqn:Ec.
    + eexists. cbn [fst snd]. repeat split; try reflexivity. lia.
    + eexists. cbn [fst snd]. repeat split; try reflexivity.
      * apply Z.ltb_ge in Es. lia.
      * intros _. unfold rcvtimeo. rewrite fold_left_app.
        cbn [fold_left rcvtimeo_step]. rewrite Z.eqb_refl. reflexivity.
Qed.

Lemma info_bytes_length (info : buffer_info_t) :
  List.length (info_bytes info) = 16%nat.
Proof. reflexivity. Qed.

Lemma handle_bytes_length (h : native_handle_t) :
  List.length (handle_bytes h) = (12 + 4 * List.length (data h))%nat.
Proof.
  unfold handle_bytes. rewrite List.length_app.
  rewrite CFacts.flat_map_int_bytes_length. reflexivity.
Qed.

(** For a handle whose [data] holds its [numFds + numInts] entries, the two
    copies fill [message_buffer] with the descriptor fields followed by the
    whole handle. *)
Lemma message_buffer_layout (h : native_handle_t) (info : buffer_info_t) :
  0 <= numFds h -> 0 <= numInts h ->
  Z.of_nat (List.length (data h)) = numFds h + numInts h ->
  28 + 4 * (numFds h + numInts h) < 2 ^ 32 ->
  message_buffer h info = Some (info_bytes info ++ handle_bytes h).
Proof.
  intros Hf Hi Hlen Hsz.
  assert (Hb : buffer_size h = 28 + 4 * (numFds h + numInts h)).
  { unfold buffer_size, C.to_uint32, sizeof_buffer_info_t,
      sizeof_native_handle_t, sizeof_int.
    rewrite Z.mod_small; lia. }
  assert (Hh : handle_size h = 12 + 4 * (numFds h + numInts h)).
  { unfold handle_size, C.to_uint32, sizeof_native_handle_t, sizeof_int.
    rewrite Z.mod_small; lia. }
  pose proof (handle_bytes_length h) as Hhb.
  unfold message_buffer, C.memcpy.
  rewrite info_bytes_length, List.repeat_length, Hb.
  unfold sizeof_buffer_info_t.
  replace ((0 <=? 0) && (0 <=? 16) && (16 <=? Z.of_nat 16)
           && (0 + 16 <=?
               Z.of_nat (Z.to_nat (28 + 4 * (numFds h + numInts h)))))
    with true
    by (symmetry; rewrite !andb_true_iff, !Z.leb_le; lia).
  set (fresh := repeat x00 (Z.to_nat (28 + 4 * (numFds h + numInts h)))).
  assert (Hfresh : List.length fresh
                   = Z.to_nat (28 + 4 * (numFds h + numInts h)))
    by apply List.repeat_length.
  change (Z.to_nat 0) with 0%nat. cbn [firstn app].
  rewrite (firstn_all2 (n := Z.to_nat 16)) by (rewrite info_bytes_length; lia).
  set (m1 := info_bytes info ++ skipn (Z.to_nat (0 + 16)) fresh).
  assert (Hm1 : List.length m1
                = Z.to_nat (28 + 4 * (numFds h + numInts h))).
  { unfold m1. rewrite List.length_app, info_bytes_length, List.length_skipn.
    lia. }
  rewrite Hh, Hhb, Hm1.
  replace ((0 <=? 16) && (0 <=? 12 + 4 * (numFds h + numInts h))
           && (12 + 4 * (numFds h + numInts h)
               <=? Z.of_nat (12 + 4 * List.length (data h)))
           && (16 + (12 + 4 * (numFds h + numInts h))
               <=? Z.of_nat (Z.to_nat (28 + 4 * (numFds h + numInts h)))))
    with true
    by (symmetry; rewrite !andb_true_iff, !Z.leb_le; lia).
  f_equal. unfold m1.
  rewrite firstn_app, info_bytes_length.
  rewrite (firstn_all2 (info_bytes info))
    by (rewrite info_bytes_length; lia).
  replace (Z.to_nat 16 - 16)%nat with 0%nat by lia.
  cbn [firstn]. rewrite app_nil_r.
  rewrite (firstn_all2 (handle_bytes h)) by lia.
  rewrite skipn_all2
    by (rewrite List.length_app, info_bytes_length, List.length_skipn; lia).
  rewrite app_nil_r. reflexivity.
Qed.

(** Clearing the low [k] bits rounds down to a multiple of [2 ^ k]. *)
Lemma land_lnot_ones (x k : Z) :
  0 <= k -> Z.land x (Z.lnot (Z.ones k)) = x / 2 ^ k * 2 ^ k.
Proof.
  intros Hk. rewrite <- Z.ldiff_land, Z.ldiff_ones_r by assumption.
  rewrite Z.shiftl_mul_pow2, Z.shiftr_div_pow2 by assumption. reflexivity.
Qed.

(** [CMSG_ALIGN] rounds up to a multiple of [sizeof(long)]. *)
Lemma CMSG_ALIGN_small (P : C.platform) (len : Z) :
  0 <= len < 2 ^ 32 - 8 ->
  CMSG_ALIGN P len
  = (len + sizeof_long P - 1) / sizeof_long P * sizeof_long P.
Proof.
  intros H. unfold CMSG_ALIGN, C.to_size_t, C.size_t_bits, sizeof_long.
  destruct (C.lp64 P).
  - rewrite Z.mod_small by lia.
    change (8 - 1) with (Z.ones 3). rewrite land_lnot_ones by lia.
    reflexivity.
  - rewrite Z.mod_small by lia.
    change (4 - 1) with (Z.ones 2). rewrite land_lnot_ones by lia.
    reflexivity.
Qed.

(** For a handle in order, the control message carries the descriptors of
    the handle; where [long] has 64 bits and [numFds] is odd, the padding
    that [CMSG_SPACE] adds is counted in [cmsg_len] and one descriptor 0
    follows them. *)
Lemma ancillary_fds_descriptors (P : C.platform) (h : native_handle_t) :
  0 <= numFds h ->
  numFds h <= Z.of_nat (List.length (data h)) ->
  28 + 4 * numFds h < 2 ^ 32 ->
  ancillary_fds P h
  = Some (firstn (Z.to_nat (numFds h)) (data h)
          ++ (if C.lp64 P && Z.odd (numFds h) then [0] else [])).
Proof.
  intros Hn Hd Hs. unfold ancillary_fds, CMSG_SPACE.
  unfold sizeof_int.
  assert (Hlen : C.to_size_t P (4 * numFds h) = 4 * numFds h).
  { unfold C.to_size_t, C.size_t_bits.
    destruct (C.lp64 P); apply Z.mod_small; lia. }
  rewrite Hlen.
  rewrite (CMSG_ALIGN_small P (4 * numFds h)) by lia.
  assert (Hh : CMSG_ALIGN P (sizeof_cmsghdr P) = sizeof_cmsghdr P)
    by (unfold CMSG_ALIGN, sizeof_cmsghdr, sizeof_long, C.to_size_t,
          C.size_t_bits; destruct (C.lp64 P); reflexivity).
  rewrite Hh.
  pose proof (Zmod_odd (numFds h)) as Ho.
  unfold sizeof_cmsghdr, sizeof_long, C.to_size_t, C.size_t_bits.
  destruct (C.lp64 P); cbn [andb].
  - assert (Ha : (4 * numFds h + 8 - 1) / 8 * 8
                 = 4 * (numFds h + (if Z.odd (numFds h) then 1 else 0))).
    { destruct (Z.odd (numFds h)); Z.div_mod_to_equations; lia. }
    rewrite Ha. set (k := if Z.odd (numFds h) then 1 else 0) in *.
    assert (Hk : 0 <= k <= 1) by (unfold k; destruct (Z.odd _); lia).
    rewrite Z.mod_small by lia.
    replace (16 + 4 * (numFds h + k) - 16) with ((numFds h + k) * 4) by lia.
    rewrite Z.div_mul by lia.
    replace ((16 <=? 16 + 4 * (numFds h + k))
             && (numFds h <=? Z.of_nat (List.length (data h)))
             && (numFds h <=? numFds h + k)) with true
      by (symmetry; rewrite !andb_true_iff, !Z.leb_le; lia).
    rewrite CFacts.take_firstn. f_equal. f_equal.
    replace (numFds h + k - Z.max 0 (numFds h)) with k by lia.
    unfold k. destruct (Z.odd (numFds h)); reflexivity.
  - replace ((4 * numFds h + 4 - 1) / 4 * 4) with (4 * numFds h)
      by (Z.div_mod_to_equations; lia).
    rewrite Z.mod_small by lia.
    replace (12 + 4 * numFds h - 12) with (numFds h * 4) by lia.
    rewrite Z.div_mul by lia.
    replace ((12 <=? 12 + 4 * numFds h)
             && (numFds h <=? Z.of_nat (List.length (data h)))
             && (numFds h <=? numFds h)) with true
      by (symmetry; rewrite !andb_true_iff, !Z.leb_le; lia).
    rewrite CFacts.take_firstn. f_equal. f_equal.
    replace (numFds h - Z.max 0 (numFds h)) with 0 by lia. reflexivity.
Qed.

(** C4, as the code has it.  For every handle with [numFds >= 0],
    [numInts >= 0] and [data] holding its [numFds + numInts] entries,
    [send_native_handle] passes one message to [sendmsg]: the four
    descriptor fields, the handle's header, then ALL of [data], that is the
    [numFds] descriptor numbers inline followed by the [numInts] integers.
    The descriptors of the handle are passed once more, in order, at the
    head of the [SCM_RIGHTS] control data (followed by one descriptor 0
    where [long] has 64 bits and [numFds] is odd, [cmsg_len] being set to
    [CMSG_SPACE]). *)
Theorem send_native_handle_message (P : C.platform) (os : OS) (fd : Z)
    (h : native_handle_t) (w hh s pf : Z) (tr : trace) :
  0 <= numFds h -> 0 <= numInts h ->
  Z.of_nat (List.length (data h)) = numFds h + numInts h ->
  28 + 4 * (numFds h + numInts h) < 2 ^ 32 ->
  let info := {| width := w; height := hh; stride := s;
                 pixel_format := pf |} in
  let fds := firstn (Z.to_nat (numFds h)) (data h) in
  let msg := info_bytes info ++ header_bytes h
             ++ flat_map C.int_bytes fds
             ++ flat_map C.int_bytes (Scenario.handle_ints h) in
  let sent := fds ++ (if C.lp64 P && Z.odd (numFds h) then [0] else []) in
  let r := os_sendmsg os tr fd msg sent in
  send_native_handle P os fd h w hh s pf tr
  = (Some r, tr ++ [Sendmsg fd msg sent r]).
Proof.
  intros Hf Hi Hlen Hsz. cbv zeta.
  unfold send_native_handle.
  rewrite message_buffer_layout by assumption.
  rewrite ancillary_fds_descriptors by lia.
  unfold Scenario.handle_ints.
  rewrite <- flat_map_app, firstn_skipn.
  unfold handle_bytes. reflexivity.
Qed.

Lemma send_native_handle_message_witness :
  send_native_handle Scenario.arm64 (Scenario.peer 3 0 []) 3
    Scenario.handle_1_2 1 2 3 4 []
  = (Some 40,
     [Sendmsg 3
        (info_bytes Scenario.info_1234
         ++ header_bytes Scenario.handle_1_2
         ++ C.int_bytes 7 ++ C.int_bytes 640 ++ C.int_bytes 480)
        [7; 0] 40]).
Proof.
  apply (send_native_handle_message Scenario.arm64 (Scenario.peer 3 0 []) 3
           Scenario.handle_1_2 1 2 3 4 []);
    [ simpl; lia | simpl; lia | reflexivity | reflexivity ].
Defined.

(** C4 as stated fails on a handle with one descriptor and no integer: the
    message carries four more bytes than specified, the descriptor number
    7 inline. *)
Lemma message_as_specified_refuted :
  message_buffer Scenario.handle_1_0 Scenario.info_1234
  = Some (Scenario.message_as_specified Scenario.handle_1_0
            Scenario.info_1234 ++ C.int_bytes 7)
  /\ message_buffer Scenario.handle_1_0 Scenario.info_1234
     <> Some (Scenario.message_as_specified Scenario.handle_1_0
                Scenario.info_1234).
Proof. split; [reflexivity | discriminate]. Qed.

(** [recv_status] on a reply of three bytes, step by step. *)
Lemma recv_status_reply (os : OS) (fd : Z) (failed : option Z)
    (tr : trace) (b0 b1 b2 : byte) :
  os_recv os tr fd 3 = RecvData [b0; b1; b2] ->
  recv_status os fd failed tr =
    let tr1 := tr ++ [Recv fd 3 true (RecvData [b0; b1; b2])] in
    if negb (Byte.eqb b2 x00) then
      ((-1, failed),
       tr1 ++ [Log LOG_E "message_buffer is not a 0 terminated string"])
    else if C.strcmp [b0; b1; b2] (C.lit "OK") =? 0 then
      ((0, Some 0), tr1)
    else if negb (C.strcmp [b0; b1; b2] (C.lit "FA") =? 0) then
      ((-1, Some 1), tr1 ++ [Log LOG_E "unknown status"])
    else ((-1, Some 1), tr1).
Proof.
  intros Hrecv. cbv zeta.
  unfold recv_status, bind, uninit, recv, ret, ALOGE, emit.
  rewrite Hrecv.
  set (stack := firstn 3 _).
  assert (Hs : skipn 3 stack = [])
    by (apply skipn_all2; unfold stack; rewrite List.length_firstn; lia).
  change (C.take 3 [b0; b1; b2]) with [b0; b1; b2].
  change (List.length [b0; b1; b2]) with 3%nat.
  rewrite Hs. cbn [app nth].
  destruct (negb (Byte.eqb b2 x00)); [reflexivity|].
  destruct (C.strcmp [b0; b1; b2] (C.lit "OK") =? 0); [reflexivity|].
  destruct (negb (C.strcmp [b0; b1; b2] (C.lit "FA") =? 0)); reflexivity.
Qed.




(** C1, as the code has it.  With the channel connected and the message
    sent, a complete F A NUL reply makes [fb_post] return -1, close the
    socket and mark the channel disconnected; a complete O K NUL reply
    makes it return 0 with the channel left open. *)
Theorem fb_post_FA_closes_channel (P : C.platform) (os : OS) (m : private_module_t)
    (buffer : native_handle_t) (w h s pf : Z) (tr : trace)
    (msg : list byte) (fds : list Z) :
  0 <= fd_renderer m ->
  message_buffer buffer {| width := w; height := h; stride := s;
                           pixel_format := pf |} = Some msg ->
  ancillary_fds P buffer = Some fds ->
  let fd := fd_renderer m in
  let sent := os_sendmsg os tr fd msg fds in
  let tr1 := tr ++ [Sendmsg fd msg fds sent] in
  0 <= sent ->
  (os_recv os tr1 fd 3 = RecvData (C.lit "FA") ->
   fb_post P os m buffer w h s pf tr
   = (Some (-1, {| fd_renderer := -1 |}),
      tr1 ++ [Recv fd 3 true (RecvData (C.lit "FA"));
              Log LOG_W "recv_status failed"; Close fd]))
  /\ (os_recv os tr1 fd 3 = RecvData (C.lit "OK") ->
      fb_post P os m buffer w h s pf tr
      = (Some (0, m), tr1 ++ [Recv fd 3 true (RecvData (C.lit "OK"))])).
Proof.
  intros Hfd Hmsg Hfds. cbv zeta. intros Hsent.
  destruct m as [fd]. cbn [fd_renderer] in *.
  assert (Efd : (fd <? 0) = false) by (apply Z.ltb_ge; lia).
  assert (Efd' : (0 <=? fd) = true) by (apply Z.leb_le; lia).
  assert (Es : (os_sendmsg os tr fd msg fds <? 0) = false)
    by (apply Z.ltb_ge; lia).
  split; intros Hrecv.
  - unfold fb_post, send_native_handle. cbn [fd_renderer].
    rewrite Efd, Hmsg, Hfds.
    unfold bind, ret, sendmsg. rewrite Efd', Es.
    rewrite (recv_status_reply os fd None _ "F"%byte "A"%byte x00 Hrecv).
    cbn. unfold exit_error, bind, ALOGW, close, emit, ret.
    rewrite <- !app_assoc. reflexivity.
  - unfold fb_post, send_native_handle. cbn [fd_renderer].
    rewrite Efd, Hmsg, Hfds.
    unfold bind, ret, sendmsg. rewrite Efd', Es.
    rewrite (recv_status_reply os fd None _ "O"%byte "K"%byte x00 Hrecv).
    cbn. reflexivity.
Qed.

Lemma fb_post_FA_closes_channel_witness :
  fb_post Scenario.arm (Scenario.peer 3 0 [RecvData (C.lit "FA")])
    {| fd_renderer := 3 |} Scenario.handle_1_0 1 2 3 4 []
  = (Some (-1, {| fd_renderer := -1 |}),
     [Sendmsg 3 (info_bytes Scenario.info_1234
                 ++ handle_bytes Scenario.handle_1_0) [7] 32;
      Recv 3 3 true (RecvData (C.lit "FA"));
      Log LOG_W "recv_status failed"; Close 3]).
Proof.
  refine (proj1 (fb_post_FA_closes_channel Scenario.arm
                   (Scenario.peer 3 0 [RecvData (C.lit "FA")])
                   {| fd_renderer := 3 |} Scenario.handle_1_0 1 2 3 4 []
                   (info_bytes Scenario.info_1234
                    ++ handle_bytes Scenario.handle_1_0) [7]
                   _ _ _ _) _).
  - simpl; lia.
  - reflexivity.
  - reflexivity.
  - simpl; lia.
  - reflexivity.
Defined.

(** C1 as stated fails: after a complete F A NUL reply the channel is
    closed and disconnected, and the call has returned -1. *)
Lemma channel_closed_after_FA :
  let out := fb_post Scenario.arm (Scenario.peer 3 0 [RecvData (C.lit "FA")])
               {| fd_renderer := 3 |} Scenario.handle_1_0 1 2 3 4 [] in
  fst out = Some (-1, {| fd_renderer := -1 |})
  /\ existsb (is_close_of 3) (snd out) = true.
Proof. split; reflexivity. Qed.

(** C7, as the code has it.  With the channel disconnected and the
    reconnect attempt failing, [fb_post] sends nothing, leaves the channel
    disconnected and returns 0, the value it also returns on success; the
    only calls it makes are those of the failed [connect_to_renderer]. *)
Theorem fb_post_peer_unavailable (P : C.platform) (os : OS) (m : private_module_t)
    (buffer : native_handle_t) (w h s pf : Z) (tr : trace) :
  fd_renderer m < 0 ->
  let tr0 := tr ++ [Log LOG_W "connecting to renderer"] in
  fst (connect_to_renderer os tr0) < 0 ->
  fb_post P os m buffer w h s pf tr
  = (Some (0, {| fd_renderer := -1 |}), snd (connect_to_renderer os tr0))
  /\ exists evs,
      snd (connect_to_renderer os tr0) = tr0 ++ evs
      /\ no_send evs = true.
Proof.
  intros Hfd. cbv zeta. intros Hconn.
  destruct (connect_to_renderer_result os
              (tr ++ [Log LOG_W "connecting to renderer"]))
    as (evs & Htr & Hns & _ & Hneg & _).
  specialize (Hneg Hconn).
  split.
  - unfold fb_post, bind at 1 2, ALOGW, emit.
    replace (fd_renderer m <? 0) with true
      by (symmetry; apply Z.ltb_lt; lia).
    destruct (connect_to_renderer os
                (tr ++ [Log LOG_W "connecting to renderer"]))
      as [r tr'] eqn:E.
    cbn [fst snd] in *. subst r. reflexivity.
  - exists evs. split; assumption.
Qed.

Lemma fb_post_peer_unavailable_witness :
  fb_post Scenario.arm Scenario.peer_absent {| fd_renderer := -1 |}
    Scenario.handle_1_0 1 2 3 4 []
  = (Some (0, {| fd_renderer := -1 |}),
     [Log LOG_W "connecting to renderer"; Socket 3;
      Connect 3 SHM_BUFFER_HANDLE_FILE (-1);
      Log LOG_E "error connecting to renderer"; Close 3]).
Proof.
  refine (proj1 (fb_post_peer_unavailable Scenario.arm
                   Scenario.peer_absent
                   {| fd_renderer := -1 |} Scenario.handle_1_0 1 2 3 4 []
                   _ _)).
  - simpl; lia.
  - simpl; lia.
Defined.

(** C7 as stated fails: with the peer absent the call returns 0, the very
    value it returns when the peer took the buffer and answered OK. *)
Lemma peer_unavailable_returns_success :
  option_map fst
    (fst (fb_post Scenario.arm Scenario.peer_absent {| fd_renderer := -1 |}
            Scenario.handle_1_0 1 2 3 4 []))
  = Some 0
  /\ option_map fst
       (fst (fb_post Scenario.arm (Scenario.peer 3 0 [RecvData (C.lit "OK")])
               {| fd_renderer := -1 |} Scenario.handle_1_0 1 2 3 4 []))
     = Some 0.
Proof. split; reflexivity. Qed.

(** Nothing in the relay path ever sets a receive timeout. *)
Lemma fb_post_sets_no_timeout (P : C.platform) (os : OS) (m : private_module_t)
    (buffer : native_handle_t) (w h s pf : Z) :
  only not_rcvtimeo (fb_post P os m buffer w h s pf).
Proof.
  unfold fb_post, connect_to_renderer, send_native_handle, recv_status,
    exit_error, ALOGW, ALOGE, close.
  repeat SysFacts.only_step.
Qed.

End SharebufferFacts.

(** ** The sensor client *)

Module SensorsFacts.
Import Sys Sfdroid_sensors.

Lemma connect_to_sfdroid_cases (os : OS) (tr : trace) :
  let s := os_socket os tr in
  let tr1 := tr ++ [Socket s; IgnoreSigpipe] in
  let c := os_connect os tr1 s SENSORS_HANDLE_FILE in
  let tr2 := tr1 ++ [Connect s SENSORS_HANDLE_FILE c] in
  let t := os_setsockopt os tr2 s in
  connect_to_sfdroid os tr =
    if s <? 0 then
      (-1, tr ++ [Socket s; Log LOG_E "error creating socket stream"])
    else if c <? 0 then
      (-1, tr2 ++ [Log LOG_E "error connecting to sfdroidsensors";
                   Usleep 100000; Close s])
    else if t <? 0 then
      (s, tr2 ++ [SetRcvTimeo s 1 0 t;
                  Log LOG_E "failed to set timeout on sensor socket"])
    else (s, tr2 ++ [SetRcvTimeo s 1 0 t]).
Proof.
  cbv zeta.
  unfold connect_to_sfdroid, bind, socket, connect, setsockopt_rcvtimeo,
    ALOGE, usleep, close, emit, ret.
  destruct (os_socket os tr <? 0) eqn:Es.
  - rewrite <- ?app_assoc. reflexivity.
  - rewrite <- ?app_assoc. cbn [app].
    destruct (os_connect os _ (os_socket os tr) SENSORS_HANDLE_FILE <? 0)
      eqn:Ec.
    + rewrite <- ?app_assoc. reflexivity.
    + rewrite <- ?app_assoc. cbn [app].
      destruct (os_setsockopt os _ (os_socket os tr) <? 0) eqn:Et;
        rewrite <- ?app_assoc; reflexivity.
Qed.

Lemma connect_to_sfdroid_failure (os : OS) (tr : trace) :
  fst (connect_to_sfdroid os tr) < 0 -> fst (connect_to_sfdroid os tr) = -1.
Proof.
  rewrite connect_to_sfdroid_cases. cbv zeta.
  destruct (os_socket os tr <? 0) eqn:Es; [reflexivity|].
  destruct (os_connect os _ _ _ <? 0); [reflexivity|].
  apply Z.ltb_ge in Es.
  destruct (os_setsockopt os _ _ <? 0); cbn [fst]; lia.
Qed.

Lemma connect_to_sfdroid_sends_nothing (os : OS) :
  only not_send (connect_to_sfdroid os).
Proof.
  unfold connect_to_sfdroid, ALOGE, usleep, close.
  repeat SysFacts.only_step.
Qed.

Lemma open_connection_sends_nothing (os : OS) (ctl : SensorPoll) :
  only not_send (open_connection os ctl).
Proof.
  unfold open_connection.
  destruct (fd ctl <? 0).
  - apply SysFacts.only_bind;
      [apply connect_to_sfdroid_sends_nothing | intros; apply SysFacts.only_ret].
  - apply SysFacts.only_ret.
Qed.

(** C9.  If the sensor channel is not connected when [poll__poll] is
    called and [connect_to_sfdroid] fails as well, the call returns 0 with
    no record stored, for every [count]. *)
Theorem poll_without_peer_returns_nothing (P : C.platform) (float : Type)
    (sscanf_acceleration : list byte -> option (float * float * float * Z))
    (os : OS) (ctl : SensorPoll) (count : Z) (tr : trace) :
  fd ctl < 0 ->
  fst (connect_to_sfdroid os tr) < 0 ->
  poll__poll P sscanf_acceleration os ctl count tr
  = (Some (0, [], set_fd ctl (-1)), snd (connect_to_sfdroid os tr)).
Proof.
  intros Hfd Hconn.
  apply connect_to_sfdroid_failure in Hconn.
  unfold poll__poll, open_connection, bind, ret.
  replace (fd ctl <? 0) with true by (symmetry; apply Z.ltb_lt; lia).
  destruct (connect_to_sfdroid os tr) as [r tr'].
  cbn [fst snd] in *. subst r. reflexivity.
Qed.

Lemma poll_without_peer_returns_nothing_witness :
  poll__poll Scenario.arm Scenario.sscanf_integers Scenario.peer_absent
    {| fd := -1; delay := 0 |} 1 []
  = (Some (0, [], {| fd := -1; delay := 0 |}),
     [Socket 3; IgnoreSigpipe; Connect 3 SENSORS_HANDLE_FILE (-1);
      Log LOG_E "error connecting to sfdroidsensors";
      Usleep 100000; Close 3]).
Proof.
  apply (poll_without_peer_returns_nothing Scenario.arm Z
           Scenario.sscanf_integers Scenario.peer_absent
           {| fd := -1; delay := 0 |} 1 []).
  - simpl; lia.
  - simpl; lia.
Defined.

(** C5, as the code has it.  For every handle other than the acceleration
    one, [poll__activate] and [poll__setDelay] return -1 after the
    connection step every call starts with, and [poll__setDelay] has
    stored the delay; nothing is ever sent.  On a connected channel they
    make no call at all; on a disconnected one the connection attempt of
    [connect_to_sfdroid] comes first. *)
Theorem unsupported_kind_rejected (P : C.platform) (os : OS)
    (ctl : SensorPoll) (handle arg : Z) (tr : trace) :
  handle <> ID_ACCELERATION P ->
  poll__activate P os ctl handle arg tr
  = (let (c, tr') := open_connection os ctl tr in ((-1, c), tr'))
  /\ poll__setDelay P os ctl handle arg tr
     = (let (c, tr') := open_connection os ctl tr in
        ((-1, {| fd := fd c; delay := arg |}), tr'))
  /\ (exists evs,
        snd (open_connection os ctl tr) = tr ++ evs
        /\ no_send evs = true)
  /\ (0 <= fd ctl -> open_connection os ctl tr = (ctl, tr))
  /\ (fd ctl < 0 ->
      open_connection os ctl tr
      = (set_fd ctl (fst (connect_to_sfdroid os tr)),
         snd (connect_to_sfdroid os tr))).
Proof.
  intros Hh.
  assert (E : (handle =? ID_ACCELERATION P) = false)
    by (apply Z.eqb_neq; assumption).
  repeat split.
  - unfold poll__activate, bind.
    destruct (open_connection os ctl tr) as [c tr'].
    rewrite E. reflexivity.
  - unfold poll__setDelay, bind.
    destruct (open_connection os ctl tr) as [c tr'].
    rewrite E. reflexivity.
  - apply open_connection_sends_nothing.
  - intros H. unfold open_connection.
    replace (fd ctl <? 0) with false by (symmetry; apply Z.ltb_ge; lia).
    reflexivity.
  - intros H. unfold open_connection, bind, ret.
    replace (fd ctl <? 0) with true by (symmetry; apply Z.ltb_lt; lia).
    destruct (connect_to_sfdroid os tr). reflexivity.
Qed.

Lemma unsupported_kind_rejected_witness :
  poll__activate Scenario.arm (Scenario.peer 3 0 [])
    {| fd := 3; delay := 0 |} 1 1 []
  = ((-1, {| fd := 3; delay := 0 |}), []).
Proof.
  refine (proj1 (unsupported_kind_rejected Scenario.arm
                   (Scenario.peer 3 0 []) {| fd := 3; delay := 0 |}
                   1 1 [] _)).
  unfold ID_ACCELERATION, ID_BASE. simpl. lia.
Defined.

(** C5 as stated fails on a disconnected channel: activating the
    magnetic-field sensor creates a socket and tries to connect before the
    handle is looked at. *)
Lemma unsupported_kind_connects_first :
  let out := poll__activate Scenario.arm Scenario.peer_absent
               {| fd := -1; delay := 0 |}
               (ID_MAGNETIC_FIELD Scenario.arm) 1 [] in
  fst (fst out) = -1
  /\ snd out = [Socket 3; IgnoreSigpipe;
                Connect 3 SENSORS_HANDLE_FILE (-1);
                Log LOG_E "error connecting to sfdroidsensors";
                Usleep 100000; Close 3]
  /\ existsb is_socket_op (snd out) = true.
Proof. repeat split. Qed.

Section Reply.

Variable P : C.platform.
Variable float : Type.
Variable sscanf_acceleration :
  list byte -> option (float * float * float * Z).
Variable os : OS.

(** With plain [char] unsigned the request for the payload is the prefix
    byte itself. *)
Lemma payload_request_unsigned (b : byte) :
  C.char_signed P = false -> payload_request P b = C.uchar b.
Proof.
  intros H. unfold payload_request, C.to_size_t, C.char_val, C.size_t_bits.
  rewrite H. cbn [andb].
  pose proof (CFacts.uchar_range b).
  destruct (C.lp64 P); apply Z.mod_small; lia.
Qed.

(** With plain [char] unsigned every prefix byte asks for fewer bytes than
    [buff] has. *)
Lemma payload_request_fits_unsigned (b : byte) :
  C.char_signed P = false -> payload_request P b < sizeof_buff.
Proof.
  intros H. rewrite (payload_request_unsigned b H).
  pose proof (CFacts.uchar_range b). unfold sizeof_buff. lia.
Qed.

Lemma payload_request_nonneg (b : byte) : 0 <= payload_request P b.
Proof.
  unfold payload_request, C.to_size_t, C.size_t_bits.
  destruct (C.lp64 P); apply Z.mod_pos_bound; lia.
Qed.

(** [recv_reply] when both [recv]s deliver data. *)
Lemma recv_reply_data (ctl : SensorPoll) (i : Z) (sync : byte)
    (tr : trace) (d1 d : list byte) :
  os_recv os tr (fd ctl) 1 = RecvData d1 ->
  let n := payload_request P (hd sync (C.take 1 d1)) in
  let tr1 := tr ++ [Recv (fd ctl) 1 false (RecvData (C.take 1 d1))] in
  os_recv os tr1 (fd ctl) n = RecvData d ->
  let reply := C.take n d in
  let tr2 := tr1 ++ [Recv (fd ctl) n false (RecvData reply)] in
  recv_reply P sscanf_acceleration os ctl i sync tr =
    if sizeof_buff <=? Z.of_nat (List.length reply) then
      (OutOfBounds, tr2)
    else
      match sscanf_acceleration (C.cstr (reply ++ [x00])) with
      | Some (x, y, z, t) =>
          (Produced {| sensor := ID_ACCELERATION P;
                       version := C.sizeof_sensors_event_t P;
                       acceleration_x := x;
                       acceleration_y := y;
                       acceleration_z := z;
                       timestamp := t |}, tr2)
      | None =>
          (Returned i ctl, tr2 ++ [Log LOG_E "unsupported command"])
      end.
Proof.
  intros H1. cbv zeta. intros H2.
  unfold recv_reply, bind, recv. rewrite H1, H2.
  destruct (sizeof_buff <=? _); [reflexivity|].
  destruct (sscanf_acceleration _) as [[[[x y] z] t]|]; reflexivity.
Qed.

(** [recv_reply] when the second [recv] fails. *)
Lemma recv_reply_error (ctl : SensorPoll) (i : Z) (sync : byte)
    (tr : trace) (d1 : list byte) :
  os_recv os tr (fd ctl) 1 = RecvData d1 ->
  let n := payload_request P (hd sync (C.take 1 d1)) in
  let tr1 := tr ++ [Recv (fd ctl) 1 false (RecvData (C.take 1 d1))] in
  os_recv os tr1 (fd ctl) n = RecvError ->
  recv_reply P sscanf_acceleration os ctl i sync tr
  = (Returned i (set_fd ctl (-1)),
     tr1 ++ [Recv (fd ctl) n false RecvError; Log LOG_E "recv failed";
             Close (fd ctl)]).
Proof.
  intros H1. cbv zeta. intros H2.
  unfold recv_reply, bind, recv. rewrite H1, H2.
  unfold drop_channel, bind, ALOGE, close, emit, ret.
  rewrite <- !app_assoc. reflexivity.
Qed.

(** One pass through the loop body either stores a record, or returns
    the index of the slot, or leaves [buff]; the last can only happen
    where plain [char] is signed. *)
Lemma poll_slot_cases (ctl : SensorPoll) (i : Z) (tr : trace) :
  match fst (poll_slot P sscanf_acceleration os ctl i tr) with
  | Produced _ => True
  | Returned r _ => r = i
  | OutOfBounds => C.char_signed P = true
  end.
Proof.
  unfold poll_slot, send_request, recv_reply, drop_channel, bind, ret,
    send, recv, usleep, ALOGE, close, emit.
  cbn [fst snd].
  destruct (os_send os _ (fd ctl) _ <? 0); [reflexivity|].
  destruct (os_send os _ (fd ctl) _ <? 0); [reflexivity|].
  cbn [fst snd].
  destruct (os_recv os _ (fd ctl) 1) as [|d1]; [reflexivity|].
  match goal with
  | |- context [payload_request P ?b] => set (b0 := b)
  end.
  destruct (os_recv os _ (fd ctl) (payload_request P b0)) as [|d];
    [reflexivity|].
  destruct (sizeof_buff <=? _) eqn:E.
  - cbn [fst]. destruct (C.char_signed P) eqn:S; [reflexivity|].
    exfalso. apply Z.leb_le in E. unfold sizeof_buff in E.
    pose proof (CFacts.take_length (payload_request P b0) d
                  (payload_request_nonneg b0)) as L.
    pose proof (payload_request_unsigned b0 S) as U.
    pose proof (CFacts.uchar_range b0). lia.
  - destruct (sscanf_acceleration _) as [[[[x y] z] t]|];
      cbn [fst]; auto.
Qed.


(** C6, as the code has it.  In the receive path of [poll__poll], a payload
    shorter than the length the prefix byte announced is not a channel
    failure: the bytes received are terminated and handed to [sscanf] like
    any reply, the channel stays open and connected.  Only a negative result
    of [recv] closes and invalidates the channel. *)
Theorem short_payload_is_parsed (ctl : SensorPoll) (i : Z) (sync : byte)
    (tr : trace) (d1 d : list byte) :
  os_recv os tr (fd ctl) 1 = RecvData d1 ->
  let n := payload_request P (hd sync (C.take 1 d1)) in
  let tr1 := tr ++ [Recv (fd ctl) 1 false (RecvData (C.take 1 d1))] in
  (os_recv os tr1 (fd ctl) n = RecvData d ->
   Z.of_nat (List.length d) < n ->
   Z.of_nat (List.length d) < sizeof_buff ->
   let tr2 := tr1 ++ [Recv (fd ctl) n false (RecvData d)] in
   recv_reply P sscanf_acceleration os ctl i sync tr =
     match sscanf_acceleration (C.cstr (d ++ [x00])) with
     | Some (x, y, z, t) =>
         (Produced {| sensor := ID_ACCELERATION P;
                      version := C.sizeof_sensors_event_t P;
                      acceleration_x := x;
                      acceleration_y := y;
                      acceleration_z := z;
                      timestamp := t |}, tr2)
     | None => (Returned i ctl, tr2 ++ [Log LOG_E "unsupported command"])
     end)
  /\ (os_recv os tr1 (fd ctl) n = RecvError ->
      recv_reply P sscanf_acceleration os ctl i sync tr
      = (Returned i (set_fd ctl (-1)),
         tr1 ++ [Recv (fd ctl) n false RecvError; Log LOG_E "recv failed";
                 Close (fd ctl)])).
Proof.
  intros H1. cbv zeta. split.
  - intros H2 Hshort Hfit.
    rewrite (recv_reply_data ctl i sync tr d1 d H1 H2). cbv zeta.
    rewrite (CFacts.take_all _ d) by lia.
    replace (sizeof_buff <=? Z.of_nat (List.length d)) with false
      by (symmetry; apply Z.leb_gt; assumption).
    reflexivity.
  - intros H2. apply (recv_reply_error ctl i sync tr d1 H1 H2).
Qed.

End Reply.

Lemma short_payload_is_parsed_witness :
  recv_reply Scenario.arm Scenario.sscanf_integers Scenario.short_reply_peer
    {| fd := 3; delay := 0 |} 0 (C.byte_of_Z 18) []
  = (Produced {| sensor := 0; version := 104; acceleration_x := 1;
                 acceleration_y := 2; acceleration_z := 3;
                 timestamp := 1000 |},
     [Recv 3 1 false (RecvData [C.byte_of_Z 40]);
      Recv 3 40 false
        (RecvData (list_byte_of_string "acceleration:1:2:3:1000"))]).
Proof.
  refine (proj1 (short_payload_is_parsed Scenario.arm Z
                   Scenario.sscanf_integers Scenario.short_reply_peer
                   {| fd := 3; delay := 0 |} 0 (C.byte_of_Z 18) []
                   [C.byte_of_Z 40]
                   (list_byte_of_string "acceleration:1:2:3:1000") _)
            _ _ _).
  - reflexivity.
  - reflexivity.
  - vm_compute; reflexivity.
  - vm_compute; reflexivity.
Defined.

(** C6 as stated fails: the peer announces 40 bytes and delivers 23; the
    call stores a record and returns 1, and the socket is not closed. *)
Lemma short_payload_keeps_channel :
  let out := poll__poll Scenario.arm Scenario.sscanf_integers
               Scenario.short_reply_peer {| fd := 3; delay := 0 |} 1 [] in
  fst out
  = Some (1,
          [{| sensor := 0; version := 104; acceleration_x := 1;
              acceleration_y := 2; acceleration_z := 3;
              timestamp := 1000 |}],
          {| fd := 3; delay := 0 |})
  /\ In (Recv 3 40 false
           (RecvData (list_byte_of_string "acceleration:1:2:3:1000")))
       (snd out)
  /\ existsb (is_close_of 3) (snd out) = false.
Proof. repeat split. vm_compute. tauto. Qed.

(** C8 at the failing input.  On a target where plain [char] is signed,
    when the first reply carries the prefix byte 128 and 300 payload bytes,
    [poll__poll] writes past [buff] in its first pass for every
    [count >= 1]: neither a return value nor a sequence of stored records is
    defined, so nothing keeps them within [count]. *)
Theorem poll_overrun_voids_count_bound (count : Z) :
  1 <= count ->
  fst (poll__poll Scenario.x86 Scenario.sscanf_integers
         Scenario.long_reply_peer {| fd := 3; delay := 0 |} count [])
  = None.
Proof.
  intros Hc. unfold poll__poll, bind, open_connection, ret.
  cbn [fd Z.ltb Z.leb Z.compare].
  destruct (Z.to_nat count) as [|n] eqn:En; [lia|].
  cbn [poll_loop]. unfold bind.
  assert (E : fst (poll_slot Scenario.x86 Scenario.sscanf_integers
                     Scenario.long_reply_peer {| fd := 3; delay := 0 |} 0 [])
              = OutOfBounds) by (vm_compute; reflexivity).
  destruct (poll_slot Scenario.x86 Scenario.sscanf_integers
              Scenario.long_reply_peer {| fd := 3; delay := 0 |} 0 [])
    as [res t1].
  cbn [fst] in E. subst res. reflexivity.
Qed.

Lemma poll_overrun_voids_count_bound_witness :
  fst (poll__poll Scenario.x86 Scenario.sscanf_integers
         Scenario.long_reply_peer {| fd := 3; delay := 0 |} 1 [])
  = None.
Proof.
  apply (poll_overrun_voids_count_bound 1). lia.
Defined.

(** C10 on a target where plain [char] is signed: for the prefix byte 128
    the payload [recv] is asked for 4294967168 bytes, and when the peer
    sends 300 the call writes past the 256 bytes of [buff]. *)
Theorem prefix_128_overruns_buff :
  let out := poll__poll Scenario.x86 Scenario.sscanf_integers
               Scenario.long_reply_peer {| fd := 3; delay := 0 |} 1 [] in
  payload_request Scenario.x86 x80 = 4294967168
  /\ In (Recv 3 4294967168 false (RecvData (repeat "a"%byte 300))) (snd out)
  /\ fst out = None.
Proof. repeat split. vm_compute. tauto. Qed.

(** C2, as the code has it.  A successful [connect_to_sfdroid] has asked for
    a receive timeout of one second on the socket it returns, which is in
    force whenever that [setsockopt] succeeded.  [connect_to_renderer] sets
    no receive timeout, the socket it returns has none, and no call of
    [fb_post] ever sets one. *)
Theorem receive_timeout_on_sensor_channel_only (P : C.platform) (os : OS)
    (tr : trace) :
  (0 <= fst (connect_to_sfdroid os tr) ->
   exists evs t,
     snd (connect_to_sfdroid os tr) = tr ++ evs
     /\ In (SetRcvTimeo (fst (connect_to_sfdroid os tr)) 1 0 t) evs
     /\ (0 <= t ->
         rcvtimeo (tr ++ evs) (fst (connect_to_sfdroid os tr)) = Some 1))
  /\ (exists evs,
        snd (Sharebuffer.connect_to_renderer os tr) = tr ++ evs
        /\ existsb is_rcvtimeo evs = false
        /\ (0 <= fst (Sharebuffer.connect_to_renderer os tr) ->
            rcvtimeo (tr ++ evs)
              (fst (Sharebuffer.connect_to_renderer os tr)) = None))
  /\ (forall m buffer w h s pf,
        only not_rcvtimeo (Sharebuffer.fb_post P os m buffer w h s pf)).
Proof.
  split; [|split].
  - rewrite connect_to_sfdroid_cases. cbv zeta.
    destruct (os_socket os tr <? 0) eqn:Es; [cbn [fst]; lia|].
    destruct (os_connect os _ _ _ <? 0) eqn:Ec; [cbn [fst]; lia|].
    set (s := os_socket os tr).
    set (c := os_connect os _ s SENSORS_HANDLE_FILE).
    set (t := os_setsockopt os _ s).
    intros _.
    destruct (t <? 0) eqn:Et; cbn [fst snd].
    + exists [Socket s; IgnoreSigpipe; Connect s SENSORS_HANDLE_FILE c;
              SetRcvTimeo s 1 0 t;
              Log LOG_E "failed to set timeout on sensor socket"], t.
      repeat split.
      * rewrite <- !app_assoc. reflexivity.
      * cbn. tauto.
      * apply Z.ltb_lt in Et. lia.
    + exists [Socket s; IgnoreSigpipe; Connect s SENSORS_HANDLE_FILE c;
              SetRcvTimeo s 1 0 t], t.
      repeat split.
      * rewrite <- !app_assoc. reflexivity.
      * cbn. tauto.
      * intros Ht. unfold rcvtimeo. rewrite fold_left_app.
        cbn [fold_left rcvtimeo_step]. rewrite !Z.eqb_refl.
        replace (0 <=? t) with true by (symmetry; apply Z.leb_le; lia).
        reflexivity.
  - destruct (SharebufferFacts.connect_to_renderer_result os tr)
      as (evs & E & _ & R & _ & T).
    exists evs. repeat split; assumption.
  - intros. apply SharebufferFacts.fb_post_sets_no_timeout.
Qed.

Lemma receive_timeout_on_sensor_channel_only_witness :
  exists evs t,
    snd (connect_to_sfdroid (Scenario.peer 3 0 []) []) = [] ++ evs
    /\ In (SetRcvTimeo (fst (connect_to_sfdroid (Scenario.peer 3 0 []) []))
             1 0 t) evs
    /\ (0 <= t ->
        rcvtimeo ([] ++ evs)
          (fst (connect_to_sfdroid (Scenario.peer 3 0 []) [])) = Some 1).
Proof.
  apply (proj1 (receive_timeout_on_sensor_channel_only Scenario.arm
                  (Scenario.peer 3 0 []) [])).
  simpl; lia.
Defined.

(** C2 as stated fails on the buffer relay channel: the socket a successful
    [connect_to_renderer] returns has no receive timeout, and it still has
    none when [fb_post] has waited for the status reply on it. *)
Lemma relay_socket_has_no_timeout :
  let out := Sharebuffer.connect_to_renderer (Scenario.peer 3 0 []) [] in
  let post := Sharebuffer.fb_post Scenario.arm
                (Scenario.peer 3 0 [RecvData (C.lit "OK")])
                {| Sharebuffer.fd_renderer := -1 |}
                Scenario.handle_1_0 1 2 3 4 [] in
  fst out = 3
  /\ snd out = [Socket 3; Connect 3 Sharebuffer.SHM_BUFFER_HANDLE_FILE 0]
  /\ rcvtimeo (snd out) 3 = None
  /\ fst post = Some (0, {| Sharebuffer.fd_renderer := 3 |})
  /\ existsb (is_recv_on 3) (snd post) = true
  /\ rcvtimeo (snd post) 3 = None.
Proof. repeat split. Qed.

End SensorsFacts.

(** ** More on C strings *)

Module CStringFacts.
Import C.

Lemma uchar_zero (b : byte) : uchar b = 0 <-> b = x00.
Proof.
  split.
  - intros H. apply CFacts.uchar_inj. rewrite H. reflexivity.
  - intros ->. reflexivity.
Qed.

Lemma eqb_x00 (b : byte) : Byte.eqb b x00 = true <-> b = x00.
Proof.
  split; [apply Byte.byte_dec_bl | apply Byte.byte_dec_lb].
Qed.

Lemma eqb_neq (a b : byte) : Byte.eqb a b = false <-> a <> b.
Proof.
  split.
  - intros E ->. rewrite Byte.byte_dec_lb in E by reflexivity. discriminate.
  - intros N. destruct (Byte.eqb a b) eqn:E; [|reflexivity].
    apply Byte.byte_dec_bl in E. contradiction.
Qed.

(** [strcmp] returns 0 exactly on buffers that hold the same C string. *)
Lemma strcmp_zero_iff (a : list byte) :
  forall b, strcmp a b = 0 <-> cstr a = cstr b.
Proof.
  induction a as [|x a IH]; intros [|y b]; cbn [strcmp cstr].
  - tauto.
  - destruct (Byte.eqb y x00) eqn:E.
    + apply eqb_x00 in E. subst y. cbn. tauto.
    + apply eqb_neq in E. split; [|discriminate].
      intros H. exfalso. apply E, uchar_zero. lia.
  - destruct (Byte.eqb x x00) eqn:E.
    + apply eqb_x00 in E. subst x. cbn. tauto.
    + apply eqb_neq in E. split; [|discriminate].
      intros H. exfalso. apply E, uchar_zero. assumption.
  - destruct (Byte.eqb x y) eqn:Exy.
    + apply Byte.byte_dec_bl in Exy. subst y.
      destruct (Byte.eqb x x00); [tauto|].
      rewrite IH. split; [intros ->; reflexivity | intros H; congruence].
    + pose proof (CFacts.eqb_false_uchar _ _ Exy) as N.
      apply eqb_neq in Exy.
      split; [contradiction|].
      destruct (Byte.eqb x x00) eqn:Ex, (Byte.eqb y x00) eqn:Ey;
        try discriminate.
      * apply eqb_x00 in Ex, Ey. congruence.
      * congruence.
Qed.

Lemma cstr_length_le (buf : list byte) :
  (List.length (cstr buf) <= List.length buf)%nat.
Proof.
  induction buf as [|b buf IH]; cbn [cstr List.length]; [lia|].
  destruct (Byte.eqb b x00); cbn [List.length]; lia.
Qed.

(** In a buffer that holds a terminator, the string and its terminator are
    the first [strlen + 1] bytes. *)
Lemma cstr_with_terminator (buf : list byte) :
  In x00 buf ->
  firstn (S (List.length (cstr buf))) buf = cstr buf ++ [x00].
Proof.
  induction buf as [|b buf IH]; intros H; [destruct H|].
  cbn [cstr]. destruct (Byte.eqb b x00) eqn:E.
  - apply eqb_x00 in E. subst b. reflexivity.
  - apply eqb_neq in E. destruct H as [H|H]; [congruence|].
    cbn [List.length app]. rewrite firstn_cons, (IH H). reflexivity.
Qed.

Lemma cstr_app_terminator (s : list byte) :
  cstr (s ++ [x00]) = cstr s.
Proof.
  induction s as [|b s IH]; [reflexivity|].
  cbn [app cstr]. destruct (Byte.eqb b x00); [reflexivity|].
  rewrite IH. reflexivity.
Qed.

Lemma uchar_byte_of_Z (z : Z) : 0 <= z < 256 -> uchar (byte_of_Z z) = z.
Proof.
  intros H. unfold byte_of_Z, uchar. rewrite Z.mod_small by assumption.
  destruct (Byte.of_N (Z.to_N z)) as [b|] eqn:E.
  - apply Byte.to_of_N in E. rewrite E. lia.
  - apply Byte.of_N_None_iff in E. lia.
Qed.

(** What [snprintf] leaves in a buffer of 128 bytes: a string of at most
    127 bytes, and the [strlen + 1] bytes that are sent are that string and
    its terminator. *)
Lemma snprintf_128 (text : string) :
  let command := snprintf 128 text in
  0 <= strlen command <= 127
  /\ take (strlen command + 1) command = cstr command ++ [x00].
Proof.
  cbv zeta. unfold snprintf, strlen.
  set (body := firstn (128 - 1) (list_byte_of_string text)).
  assert (Hb : (List.length body <= 127)%nat)
    by (unfold body; rewrite List.length_firstn; lia).
  rewrite cstr_app_terminator.
  pose proof (cstr_length_le body) as Hc.
  split; [lia|].
  rewrite CFacts.take_firstn.
  replace (Z.to_nat (Z.of_nat (List.length (cstr body)) + 1))
    with (S (List.length (cstr body))) by lia.
  rewrite <- (cstr_app_terminator body).
  apply cstr_with_terminator.
  apply in_or_app. right. left. reflexivity.
Qed.

End CStringFacts.

(** ** The table of sensor names *)

Module SensorTableFacts.
Import Sys Sfdroid_sensors.

Ltac decide_eqb :=
  repeat match goal with
         | |- context [?a =? ?b] => destruct (Z.eqb_spec a b); try lia
         end.

(** X1.  Names and ids of the table determine each other: for each of the
    five entries, [_sensorIdFromName] of the name is the id and
    [_sensorIdToName] of the id is the name. *)
Theorem sensor_table_round_trip (P : C.platform) (name : string) (id : Z) :
  In (name, id) (_sensorIds P) ->
  _sensorIdFromName P (Some (C.lit name)) = id
  /\ _sensorIdToName P id = name.
Proof.
  unfold _sensorIds. cbn [In].
  intros [H|[H|[H|[H|[H|[]]]]]]; injection H as <- <-; split;
    try reflexivity;
    unfold _sensorIdToName, _sensorIds, ID_ACCELERATION, ID_MAGNETIC_FIELD,
      ID_ORIENTATION, ID_TEMPERATURE, ID_PROXIMITY;
    cbn [find snd fst]; decide_eqb; reflexivity.
Qed.

Lemma sensor_table_round_trip_witness :
  _sensorIdFromName Scenario.arm (Some (C.lit "orientation")) = 2
  /\ _sensorIdToName Scenario.arm 2 = "orientation"%string.
Proof.
  apply (sensor_table_round_trip Scenario.arm "orientation" 2).
  simpl. tauto.
Defined.

(** X2.  For a handle whose distance to [ID_BASE] fits an [int],
    [ID_CHECK] holds exactly for the five ids of the table, and every other
    handle is named ["<UNKNOWN>"]. *)
Theorem ID_CHECK_iff_listed (P : C.platform) (x : Z) :
  - 2 ^ 31 <= x - ID_BASE P < 2 ^ 31 ->
  (ID_CHECK P x = true <-> exists name, In (name, x) (_sensorIds P))
  /\ (ID_CHECK P x = false -> _sensorIdToName P x = "<UNKNOWN>"%string).
Proof.
  intros Hr. unfold ID_CHECK, MAX_NUM_SENSORS, C.to_uint32.
  assert (Hm : (x - ID_BASE P) mod 2 ^ 32 < 5 <-> 0 <= x - ID_BASE P < 5).
  { destruct (Z.le_gt_cases 0 (x - ID_BASE P)) as [Hp|Hn].
    - rewrite Z.mod_small by lia. lia.
    - replace ((x - ID_BASE P) mod 2 ^ 32) with (x - ID_BASE P + 2 ^ 32);
        [lia|].
      apply Z.mod_unique with (q := -1); lia. }
  split; [split|].
  - intros H. apply Z.ltb_lt, Hm in H.
    unfold _sensorIds, ID_ACCELERATION, ID_MAGNETIC_FIELD, ID_ORIENTATION,
      ID_TEMPERATURE, ID_PROXIMITY. cbn [In].
    assert (x = ID_BASE P + 0 \/ x = ID_BASE P + 1 \/ x = ID_BASE P + 2
            \/ x = ID_BASE P + 3 \/ x = ID_BASE P + 4) as [E|[E|[E|[E|E]]]]
      by lia; subst x; eexists; eauto 10.
  - intros [name H]. apply Z.ltb_lt, Hm.
    unfold _sensorIds, ID_ACCELERATION, ID_MAGNETIC_FIELD, ID_ORIENTATION,
      ID_TEMPERATURE, ID_PROXIMITY in H. cbn [In] in H.
    destruct H as [H|[H|[H|[H|[H|[]]]]]]; injection H as _ <-; lia.
  - intros H. apply Z.ltb_ge in H.
    assert (Hout : ~ 0 <= x - ID_BASE P < 5) by (intros K; apply Hm in K; lia).
    unfold _sensorIdToName, _sensorIds, ID_ACCELERATION, ID_MAGNETIC_FIELD,
      ID_ORIENTATION, ID_TEMPERATURE, ID_PROXIMITY.
    cbn [find snd fst]. decide_eqb. reflexivity.
Qed.

Lemma ID_CHECK_iff_listed_witness :
  (ID_CHECK Scenario.arm 7 = true
   <-> exists name, In (name, 7) (_sensorIds Scenario.arm))
  /\ (ID_CHECK Scenario.arm 7 = false
      -> _sensorIdToName Scenario.arm 7 = "<UNKNOWN>"%string).
Proof.
  apply (ID_CHECK_iff_listed Scenario.arm 7).
  vm_compute. split; [discriminate | reflexivity].
Defined.

(** X3.  [_sensorIdFromName] answers -1 for the null pointer and for every
    string that is none of the five names; in particular the name
    [_sensorIdToName] gives to an unknown handle leads back to -1, not to
    that handle. *)
Theorem unknown_name_has_no_id (P : C.platform) (name : list byte) :
  _sensorIdFromName P None = -1
  /\ ((forall e, In e (_sensorIds P) ->
       C.cstr name <> list_byte_of_string (fst e)) ->
      _sensorIdFromName P (Some name) = -1)
  /\ _sensorIdFromName P (Some (C.lit "<UNKNOWN>")) = -1.
Proof.
  split; [reflexivity|]. split; [|reflexivity].
  intros H. unfold _sensorIdFromName.
  destruct (find _ (_sensorIds P)) as [e|] eqn:F; [|reflexivity].
  apply find_some in F. destruct F as [Hin Hz].
  apply Z.eqb_eq, CStringFacts.strcmp_zero_iff in Hz.
  exfalso. apply (H e Hin). rewrite Hz.
  unfold _sensorIds in Hin. cbn [In] in Hin.
  destruct Hin as [<-|[<-|[<-|[<-|[<-|[]]]]]]; reflexivity.
Qed.

Lemma unknown_name_has_no_id_witness :
  _sensorIdFromName Scenario.arm (Some (C.lit "gyroscope")) = -1.
Proof.
  apply (proj1 (proj2 (unknown_name_has_no_id Scenario.arm
                         (C.lit "gyroscope")))).
  intros e H. simpl in H.
  destruct H as [<-|[<-|[<-|[<-|[<-|[]]]]]]; discriminate.
Defined.

End SensorTableFacts.

(** ** Commands sent by [poll__activate] and [poll__setDelay] *)

Module CommandFacts.
Import Sys Sfdroid_sensors.

Lemma only_send (ok : event -> bool) (os : OS) (fd : Z) (data : list byte) :
  (forall r, ok (Send fd data r) = true) -> only ok (send os fd data).
Proof.
  intros H tr. eexists [_]. split; [reflexivity|].
  cbn. rewrite H. reflexivity.
Qed.

Ltac only_send_step :=
  lazymatch goal with
  | |- only _ (send _ _ _) => apply only_send; intros; reflexivity
  | |- only _ (if ?c then _ else _) => destruct c
  | |- _ => SysFacts.only_step
  end.

Lemma acceleration_name (P : C.platform) :
  _sensorIdToName P (ID_ACCELERATION P) = "acceleration"%string.
Proof.
  unfold _sensorIdToName, _sensorIds. cbn [find snd fst].
  rewrite Z.eqb_refl. reflexivity.
Qed.

Lemma open_connection_connected (os : OS) (ctl : SensorPoll) (tr : trace) :
  0 <= fd ctl -> open_connection os ctl tr = (ctl, tr).
Proof.
  intros H. unfold open_connection.
  replace (fd ctl <? 0) with false by (symmetry; apply Z.ltb_ge; lia).
  reflexivity.
Qed.

(** The two [send]s, case by case. *)
Lemma send_command_cases (os : OS) (ctl : SensorPoll) (text : string)
    (tr : trace) :
  let command := C.snprintf 128 text in
  let b := C.byte_of_Z (C.strlen command + 1) in
  let payload := C.cstr command ++ [x00] in
  let r1 := os_send os tr (fd ctl) [b] in
  let tr1 := tr ++ [Send (fd ctl) [b] r1] in
  let r2 := os_send os tr1 (fd ctl) payload in
  send_command os ctl command tr =
    if r1 <? 0 then
      ((-1, set_fd ctl (-1)),
       tr1 ++ [Log LOG_E "when sending sync byte"; Close (fd ctl)])
    else if r2 <? 0 then
      ((-1, set_fd ctl (-1)),
       tr1 ++ [Send (fd ctl) payload r2; Close (fd ctl);
               Log LOG_E "when sending command"])
    else ((0, ctl), tr1 ++ [Send (fd ctl) payload r2]).
Proof.
  cbv zeta. destruct (CStringFacts.snprintf_128 text) as [_ Hp].
  cbv zeta in Hp.
  unfold send_command, bind, send, ALOGE, close, emit, ret.
  rewrite Hp.
  destruct (os_send os tr (fd ctl) _ <? 0).
  - rewrite <- !app_assoc. reflexivity.
  - destruct (os_send os _ (fd ctl) _ <? 0);
      rewrite <- ?app_assoc; reflexivity.
Qed.

(** The prefix byte counts the bytes that follow it. *)
Lemma prefix_counts_payload (text : string) :
  let command := C.snprintf 128 text in
  let b := C.byte_of_Z (C.strlen command + 1) in
  let payload := C.cstr command ++ [x00] in
  C.uchar b = Z.of_nat (List.length payload) /\ 1 <= C.uchar b <= 128.
Proof.
  cbv zeta. destruct (CStringFacts.snprintf_128 text) as [Hl _].
  cbv zeta in Hl.
  rewrite CStringFacts.uchar_byte_of_Z by lia.
  rewrite List.length_app. cbn [List.length].
  unfold C.strlen in *. lia.
Qed.

Ltac no_failure H :=
  match goal with
  | |- context [if ?c then _ else _] =>
      replace c with false by (symmetry; apply Z.ltb_ge; exact H)
  end.

Ltac failure H :=
  match goal with
  | |- context [if ?c then _ else _] =>
      replace c with true by (symmetry; apply Z.ltb_lt; exact H)
  end.

(** X4.  On a connected channel, [poll__activate] of the acceleration
    handle sends the prefix byte 19 and then the 19 bytes of
    ["set:acceleration:0"] or ["set:acceleration:1"] with their terminator,
    any non-zero [enabled] being sent as 1; when both writes succeed it
    returns 0 at once, without reading a reply and with the channel
    unchanged. *)
Theorem activate_sends_set_command (P : C.platform) (os : OS)
    (ctl : SensorPoll) (enabled : Z) (tr : trace) :
  0 <= fd ctl ->
  let payload := C.lit (if enabled =? 0 then "set:acceleration:0"
                        else "set:acceleration:1") in
  let r1 := os_send os tr (fd ctl) [C.byte_of_Z 19] in
  let tr1 := tr ++ [Send (fd ctl) [C.byte_of_Z 19] r1] in
  let r2 := os_send os tr1 (fd ctl) payload in
  0 <= r1 -> 0 <= r2 ->
  C.uchar (C.byte_of_Z 19) = Z.of_nat (List.length payload)
  /\ poll__activate P os ctl (ID_ACCELERATION P) enabled tr
     = ((0, ctl), tr1 ++ [Send (fd ctl) payload r2]).
Proof.
  intros Hfd. cbv zeta. intros H1 H2.
  split; [destruct (enabled =? 0); reflexivity|].
  unfold poll__activate, bind.
  rewrite (open_connection_connected os ctl tr Hfd).
  rewrite Z.eqb_refl, acceleration_name.
  replace (0 <=? fd ctl) with true by (symmetry; apply Z.leb_le; lia).
  rewrite send_command_cases. cbv zeta.
  destruct (enabled =? 0); no_failure H1; no_failure H2; reflexivity.
Qed.

Lemma activate_sends_set_command_witness :
  poll__activate Scenario.arm (Scenario.peer 3 0 [])
    {| fd := 3; delay := 0 |} (ID_ACCELERATION Scenario.arm) 5 []
  = ((0, {| fd := 3; delay := 0 |}),
     [Send 3 [C.byte_of_Z 19] 1;
      Send 3 (C.lit "set:acceleration:1") 19]).
Proof.
  refine (proj2 (activate_sends_set_command Scenario.arm
                   (Scenario.peer 3 0 []) {| fd := 3; delay := 0 |} 5 []
                   _ _ _)).
  - simpl; lia.
  - simpl; lia.
  - simpl; lia.
Defined.

(** X5.  On a connected channel, [poll__setDelay] of the acceleration
    handle frames its command for every [ns]: the prefix byte is the number
    of bytes sent after it, terminator included, and lies between 1 and
    128; when both writes succeed the call returns 0 without reading a
    reply. *)
Theorem setDelay_frames_command (P : C.platform) (os : OS)
    (ctl : SensorPoll) (ns : Z) (tr : trace) :
  0 <= fd ctl ->
  let command := C.snprintf 128 ("setDelay:acceleration:" ++ dec ns) in
  let b := C.byte_of_Z (C.strlen command + 1) in
  let payload := C.cstr command ++ [x00] in
  let r1 := os_send os tr (fd ctl) [b] in
  let tr1 := tr ++ [Send (fd ctl) [b] r1] in
  let r2 := os_send os tr1 (fd ctl) payload in
  C.uchar b = Z.of_nat (List.length payload)
  /\ 1 <= C.uchar b <= 128
  /\ (0 <= r1 -> 0 <= r2 ->
      poll__setDelay P os ctl (ID_ACCELERATION P) ns tr
      = ((0, {| fd := fd ctl; delay := ns |}),
         tr1 ++ [Send (fd ctl) payload r2])).
Proof.
  intros Hfd. cbv zeta.
  destruct (prefix_counts_payload ("setDelay:acceleration:" ++ dec ns))
    as [Hc Hr].
  cbv zeta in Hc, Hr.
  split; [exact Hc|]. split; [exact Hr|].
  intros H1 H2.
  unfold poll__setDelay, bind.
  rewrite (open_connection_connected os ctl tr Hfd).
  rewrite Z.eqb_refl, acceleration_name. cbn [fd].
  replace (0 <=? fd ctl) with true by (symmetry; apply Z.leb_le; lia).
  change ("setDelay:" ++ "acceleration" ++ ":" ++ dec ns)%string
    with ("setDelay:acceleration:" ++ dec ns)%string.
  rewrite send_command_cases. cbv zeta. cbn [fd].
  no_failure H1. no_failure H2. reflexivity.
Qed.

Lemma setDelay_frames_command_witness :
  poll__setDelay Scenario.arm (Scenario.peer 3 0 [])
    {| fd := 3; delay := 0 |} (ID_ACCELERATION Scenario.arm) (-66) []
  = ((0, {| fd := 3; delay := -66 |}),
     [Send 3 [C.byte_of_Z 26] 1;
      Send 3 (C.lit "setDelay:acceleration:-66") 26]).
Proof.
  refine (proj2 (proj2 (setDelay_frames_command Scenario.arm
                          (Scenario.peer 3 0 []) {| fd := 3; delay := 0 |}
                          (-66) [] _)) _ _).
  - simpl; lia.
  - vm_compute; discriminate.
  - vm_compute; discriminate.
Defined.

(** X6.  [poll__activate] and [poll__setDelay] never call [recv], whatever
    the handle, the channel state and the answers of the peer. *)
Theorem activate_and_setDelay_never_receive (P : C.platform) (os : OS)
    (ctl : SensorPoll) (handle arg : Z) :
  only not_recv (poll__activate P os ctl handle arg)
  /\ only not_recv (poll__setDelay P os ctl handle arg).
Proof.
  split.
  - unfold poll__activate, open_connection, connect_to_sfdroid,
      send_command, ALOGE, usleep, close.
    repeat only_send_step.
  - unfold poll__setDelay, open_connection, connect_to_sfdroid,
      send_command, ALOGE, usleep, close.
    repeat only_send_step.
Qed.

(** X7.  When the channel is disconnected and the connection attempt fails,
    [poll__activate] and [poll__setDelay] of the acceleration handle still
    return 0; they make no call beyond the failed attempt, and
    [poll__setDelay] has stored the delay. *)
Theorem acceleration_accepted_without_peer (P : C.platform) (os : OS)
    (ctl : SensorPoll) (arg : Z) (tr : trace) :
  fd ctl < 0 ->
  fst (connect_to_sfdroid os tr) < 0 ->
  poll__activate P os ctl (ID_ACCELERATION P) arg tr
  = ((0, set_fd ctl (-1)), snd (connect_to_sfdroid os tr))
  /\ poll__setDelay P os ctl (ID_ACCELERATION P) arg tr
     = ((0, {| fd := -1; delay := arg |}), snd (connect_to_sfdroid os tr)).
Proof.
  intros Hfd Hc. apply SensorsFacts.connect_to_sfdroid_failure in Hc.
  unfold poll__activate, poll__setDelay, open_connection, bind, ret.
  replace (fd ctl <? 0) with true by (symmetry; apply Z.ltb_lt; lia).
  destruct (connect_to_sfdroid os tr) as [s tr'].
  cbn [fst snd] in *. subst s.
  rewrite Z.eqb_refl. split; reflexivity.
Qed.

Lemma acceleration_accepted_without_peer_witness :
  poll__activate Scenario.arm Scenario.peer_absent
    {| fd := -1; delay := 0 |} (ID_ACCELERATION Scenario.arm) 1 []
  = ((0, {| fd := -1; delay := 0 |}),
     [Socket 3; IgnoreSigpipe; Connect 3 SENSORS_HANDLE_FILE (-1);
      Log LOG_E "error connecting to sfdroidsensors";
      Usleep 100000; Close 3]).
Proof.
  refine (proj1 (acceleration_accepted_without_peer Scenario.arm
                   Scenario.peer_absent {| fd := -1; delay := 0 |} 1 []
                   _ _)).
  - simpl; lia.
  - simpl; lia.
Defined.

End CommandFacts.

(** ** Who owns which descriptor *)

Module OwnershipFacts.
Import Sys Sfdroid_sensors.

Lemma live_after_app (st : option (list Z)) (e1 e2 : trace) :
  live_after st (e1 ++ e2) = live_after (live_after st e1) e2.
Proof. apply fold_left_app. Qed.

Lemma live_app (tr evs : trace) :
  live (tr ++ evs) = live_after (live tr) evs.
Proof. apply fold_left_app. Qed.

Lemma live_after_neutral (evs : trace) :
  forall st, forallb neutral evs = true -> live_after st evs = st.
Proof.
  induction evs as [|e evs IH]; intros st H; [reflexivity|].
  cbn [forallb] in H. apply andb_true_iff in H. destruct H as [He Hr].
  cbn [live_after fold_left]. fold (live_after (live_step st e) evs).
  rewrite (IH _ Hr).
  destruct st as [l|]; [|reflexivity].
  destruct e; try reflexivity; discriminate.
Qed.

(** Closing the one descriptor of a channel leaves none. *)
Lemma live_after_drop (f : Z) (pre : trace) :
  0 <= f -> forallb neutral pre = true ->
  live_after (Some (owned f)) (pre ++ [Close f]) = Some (owned (-1)).
Proof.
  intros Hf Hn. rewrite live_after_app, (live_after_neutral pre _ Hn).
  unfold owned. replace (0 <=? f) with true by (symmetry; apply Z.leb_le; lia).
  cbn. rewrite Z.eqb_refl. reflexivity.
Qed.

(** [connect_to_sfdroid] adds the descriptor it returns to the open ones,
    and nothing when it returns -1. *)
Lemma connect_to_sfdroid_live (os : OS) (tr : trace) (l : list Z) :
  exists evs,
    snd (connect_to_sfdroid os tr) = tr ++ evs
    /\ live_after (Some l) evs
       = Some (owned (fst (connect_to_sfdroid os tr)) ++ l).
Proof.
  rewrite SensorsFacts.connect_to_sfdroid_cases. cbv zeta.
  destruct (os_socket os tr <? 0) eqn:Es.
  - eexists. cbn [fst snd]. split; [reflexivity|].
    cbn. rewrite Z.leb_antisym, Es. reflexivity.
  - assert (Hs : (0 <=? os_socket os tr) = true)
      by (rewrite Z.leb_antisym, Es; reflexivity).
    destruct (os_connect os _ _ _ <? 0).
    + rewrite <- !app_assoc. eexists. cbn [fst snd]. split; [reflexivity|].
      cbn. rewrite Hs. cbn. rewrite Z.eqb_refl. reflexivity.
    + destruct (os_setsockopt os _ _ <? 0);
        rewrite <- !app_assoc; eexists; cbn [fst snd];
        (split; [reflexivity|]); cbn; unfold owned; rewrite Hs; reflexivity.
Qed.

Lemma open_connection_live (os : OS) (ctl : SensorPoll) (tr : trace) :
  exists evs,
    snd (open_connection os ctl tr) = tr ++ evs
    /\ live_after (Some (owned (fd ctl))) evs
       = Some (owned (fd (fst (open_connection os ctl tr))))
    /\ delay (fst (open_connection os ctl tr)) = delay ctl
    /\ (0 <= fd ctl -> fst (open_connection os ctl tr) = ctl /\ evs = []).
Proof.
  unfold open_connection, bind, ret.
  destruct (fd ctl <? 0) eqn:E.
  - destruct (connect_to_sfdroid_live os tr []) as (evs & Ht & Hl).
    destruct (connect_to_sfdroid os tr) as [s tr'].
    cbn [fst snd] in *. exists evs.
    unfold owned at 1. rewrite Z.leb_antisym, E. cbn [negb].
    rewrite app_nil_r in Hl.
    repeat split; try assumption.
    + apply Z.ltb_lt in E. lia.
    + apply Z.ltb_lt in E. lia.
  - exists []. cbn [fst snd]. rewrite app_nil_r.
    repeat split; reflexivity.
Qed.

Ltac split_last :=
  match goal with
  | |- exists pre, ?l = pre ++ _ /\ _ =>
      exists (removelast l); split; reflexivity
  end.

Section Loop.

Variable P : C.platform.
Variable float : Type.
Variable sscanf_acceleration :
  list byte -> option (float * float * float * Z).
Variable os : OS.

(** One pass through the loop body leaves the channel alone, or ends by
    closing its descriptor and marking it disconnected. *)
Lemma poll_slot_effect (ctl : SensorPoll) (i : Z) (tr : trace) :
  exists evs,
    snd (poll_slot P sscanf_acceleration os ctl i tr) = tr ++ evs
    /\ match fst (poll_slot P sscanf_acceleration os ctl i tr) with
       | Returned _ ctl' =>
           (ctl' = ctl /\ forallb neutral evs = true)
           \/ (ctl' = set_fd ctl (-1)
               /\ exists pre, evs = pre ++ [Close (fd ctl)]
                              /\ forallb neutral pre = true)
       | _ => forallb neutral evs = true
       end.
Proof.
  unfold poll_slot, send_request, recv_reply, drop_channel, bind, ret,
    send, recv, usleep, ALOGE, close, emit.
  cbn [fst snd].
  destruct (os_send os _ (fd ctl) _ <? 0).
  { rewrite <- !app_assoc. eexists. split; [reflexivity|].
    cbn [fst app]. right. split; [reflexivity|]. split_last. }
  destruct (os_send os _ (fd ctl) _ <? 0).
  { rewrite <- !app_assoc. eexists. split; [reflexivity|].
    cbn [fst app]. right. split; [reflexivity|]. split_last. }
  cbn [fst snd].
  destruct (os_recv os _ (fd ctl) 1) as [|d1].
  { rewrite <- !app_assoc. eexists. split; [reflexivity|].
    cbn [fst app]. right. split; [reflexivity|]. split_last. }
  match goal with
  | |- context [payload_request P ?b] => set (b0 := b)
  end.
  destruct (os_recv os _ (fd ctl) (payload_request P b0)) as [|d].
  { rewrite <- !app_assoc. eexists. split; [reflexivity|].
    cbn [fst app]. right. split; [reflexivity|]. split_last. }
  destruct (sizeof_buff <=? _).
  { rewrite <- !app_assoc. eexists. split; reflexivity. }
  destruct (sscanf_acceleration _) as [[[[x y] z] t]|].
  - rewrite <- !app_assoc. eexists. split; reflexivity.
  - rewrite <- !app_assoc. eexists. split; [reflexivity|].
    cbn [fst app]. left. split; reflexivity.
Qed.

(** The same for the whole loop; the records stored are added at the end
    of [data]. *)
Lemma poll_loop_effect (count : Z) (n : nat) :
  forall (i : Z) (ctl : SensorPoll) (data : list (sensors_event_t float))
         (tr : trace),
  exists evs,
    snd (poll_loop P sscanf_acceleration os n i count ctl data tr)
    = tr ++ evs
    /\ match fst (poll_loop P sscanf_acceleration os n i count ctl data tr)
       with
       | Some (_, data', ctl') =>
           ((ctl' = ctl /\ forallb neutral evs = true)
            \/ (ctl' = set_fd ctl (-1)
                /\ exists pre, evs = pre ++ [Close (fd ctl)]
                               /\ forallb neutral pre = true))
           /\ exists more,
                data' = data ++ more
                /\ Forall (fun e => sensor float e = ID_ACCELERATION P
                                    /\ version float e
                                       = C.sizeof_sensors_event_t P)
                     more
       | None => True
       end.
Proof.
  induction n as [|n IH]; intros i ctl data tr.
  - exists []. cbn. rewrite app_nil_r. split; [reflexivity|].
    split; [left; split; reflexivity|].
    exists []. rewrite app_nil_r. split; [reflexivity | constructor].
  - cbn [poll_loop]. unfold bind.
    destruct (poll_slot_effect ctl i tr) as (e1 & T1 & H1).
    pose proof (SensorsFacts.poll_slot_cases P float sscanf_acceleration os
                  ctl i tr) as Hc.
    destruct (poll_slot P sscanf_acceleration os ctl i tr) as [res tr1]
      eqn:Eslot.
    cbn [fst snd] in *. subst tr1.
    destruct res as [e | r ctl' | ].
    + destruct (IH (i + 1) ctl (data ++ [e]) (tr ++ e1)) as (e2 & T2 & H2).
      exists (e1 ++ e2). rewrite T2, app_assoc. split; [reflexivity|].
      destruct (fst (poll_loop P sscanf_acceleration os n (i + 1) count ctl
                       (data ++ [e]) (tr ++ e1))) as [[[r d'] c']|];
        [|exact I].
      destruct H2 as [Hch (more & -> & Hm)]. split.
      * destruct Hch as [[-> Hn]|[-> (pre & -> & Hn)]].
        -- left. split; [reflexivity|].
           rewrite forallb_app, H1, Hn. reflexivity.
        -- right. split; [reflexivity|].
           exists (e1 ++ pre). rewrite app_assoc. split; [reflexivity|].
           rewrite forallb_app, H1, Hn. reflexivity.
      * exists (e :: more). rewrite <- app_assoc. split; [reflexivity|].
        constructor; [|assumption].
        (* the record comes from [recv_reply] *)
        clear - Eslot.
        unfold poll_slot, send_request, recv_reply, drop_channel, bind, ret,
          send, recv, usleep, ALOGE, close, emit in Eslot.
        cbn [fst snd] in Eslot.
        destruct (os_send os _ (fd ctl) _ <? 0); [discriminate|].
        destruct (os_send os _ (fd ctl) _ <? 0); [discriminate|].
        cbn [fst snd] in Eslot.
        destruct (os_recv os _ (fd ctl) 1); [discriminate|].
        destruct (os_recv os _ (fd ctl) _); [discriminate|].
        destruct (sizeof_buff <=? _); [discriminate|].
        destruct (sscanf_acceleration _) as [[[[x y] z] t]|];
          [|discriminate].
        injection Eslot as <- _. split; reflexivity.
    + exists e1. split; [reflexivity|]. cbn [fst]. split; [exact H1|].
      exists []. rewrite app_nil_r. split; [reflexivity | constructor].
    + exists e1. split; [reflexivity | exact I].
Qed.

End Loop.

(** Every pass through the loop body starts with the sleep. *)
Lemma poll_slot_sleeps_first (P : C.platform) (float : Type)
    (sscanf_acceleration : list byte -> option (float * float * float * Z))
    (os : OS) (c : SensorPoll) (i : Z) (t : trace) :
  exists rest,
    snd (poll_slot P sscanf_acceleration os c i t)
    = t ++ Usleep (C.to_uint32 (Z.quot (delay c) 1000)) :: rest.
Proof.
  unfold poll_slot, send_request, recv_reply, drop_channel, bind, ret,
    send, recv, usleep, ALOGE, close, emit.
  cbn [fst snd].
  destruct (os_send os _ (fd c) _ <? 0).
  { rewrite <- !app_assoc. eexists. reflexivity. }
  destruct (os_send os _ (fd c) _ <? 0).
  { rewrite <- !app_assoc. eexists. reflexivity. }
  cbn [fst snd].
  destruct (os_recv os _ (fd c) 1) as [|d1].
  { rewrite <- !app_assoc. eexists. reflexivity. }
  destruct (os_recv os _ (fd c) _) as [|d].
  { rewrite <- !app_assoc. eexists. reflexivity. }
  destruct (sizeof_buff <=? _).
  { rewrite <- !app_assoc. eexists. reflexivity. }
  destruct (sscanf_acceleration _) as [[[[x y] z] u]|];
    rewrite <- !app_assoc; eexists; reflexivity.
Qed.

(** X8.  [poll__setDelay] stores [ns] as the delay for every handle and
    whatever happens on the socket, and each later pass of the poll loop
    starts by sleeping [ns / 1000] microseconds (rounded toward zero and
    taken as an unsigned 32-bit number). *)
Theorem setDelay_sets_poll_sleep (P : C.platform) (float : Type)
    (sscanf_acceleration : list byte -> option (float * float * float * Z))
    (os : OS) (ctl : SensorPoll) (handle ns : Z) (tr : trace) :
  let c := snd (fst (poll__setDelay P os ctl handle ns tr)) in
  delay c = ns
  /\ forall i t, exists rest,
       snd (poll_slot P sscanf_acceleration os c i t)
       = t ++ Usleep (C.to_uint32 (Z.quot ns 1000)) :: rest.
Proof.
  cbv zeta.
  assert (H : delay (snd (fst (poll__setDelay P os ctl handle ns tr))) = ns).
  { unfold poll__setDelay, bind.
    destruct (open_connection os ctl tr) as [c tr'].
    destruct (handle =? ID_ACCELERATION P); [|reflexivity].
    cbn [fd]. destruct (0 <=? fd c); [|reflexivity].
    unfold send_command, bind, send, ALOGE, close, emit, ret. cbn [fd].
    destruct (os_send os _ _ _ <? 0); [reflexivity|].
    destruct (os_send os _ _ _ <? 0); reflexivity. }
  split; [exact H|].
  intros i t.
  destruct (poll_slot_sleeps_first P float sscanf_acceleration os
              (snd (fst (poll__setDelay P os ctl handle ns tr))) i t)
    as [rest Hr].
  exists rest. rewrite Hr, H. reflexivity.
Qed.

(** X9.  [poll__poll] keeps the books on descriptors: if the descriptor of
    the channel is the only one open when the call starts, the same holds
    for the channel state the call returns.  The call leaves the delay
    alone, and a channel that was connected is afterwards either the same
    descriptor or marked disconnected. *)
Theorem poll_keeps_socket_accounting (P : C.platform) (float : Type)
    (sscanf_acceleration : list byte -> option (float * float * float * Z))
    (os : OS) (ctl : SensorPoll) (count : Z) (tr : trace) :
  live tr = Some (owned (fd ctl)) ->
  match fst (poll__poll P sscanf_acceleration os ctl count tr) with
  | Some (_, _, ctl') =>
      live (snd (poll__poll P sscanf_acceleration os ctl count tr))
      = Some (owned (fd ctl'))
      /\ delay ctl' = delay ctl
      /\ (0 <= fd ctl -> fd ctl' = fd ctl \/ fd ctl' = -1)
  | None => True
  end.
Proof.
  intros Hinv. unfold poll__poll, bind.
  destruct (open_connection_live os ctl tr) as (e0 & T0 & L0 & D0 & C0).
  destruct (open_connection os ctl tr) as [c tr0].
  cbn [fst snd] in *. subst tr0.
  destruct (0 <=? fd c) eqn:Ec.
  - apply Z.leb_le in Ec.
    destruct (poll_loop_effect P float sscanf_acceleration os count
                (Z.to_nat count) 0 c [] (tr ++ e0)) as (e1 & T1 & H1).
    rewrite T1.
    destruct (fst (poll_loop P sscanf_acceleration os (Z.to_nat count) 0
                     count c [] (tr ++ e0))) as [[[r d] c']|]; [|exact I].
    destruct H1 as [[[-> Hn]|[-> (pre & -> & Hn)]] _].
    + rewrite live_app, live_app, Hinv, L0, (live_after_neutral _ _ Hn).
      repeat split; try assumption.
      intros Hc. destruct (C0 Hc) as [-> _]. left. reflexivity.
    + rewrite live_app, live_app, Hinv, L0, (live_after_drop _ _ Ec Hn).
      repeat split; try assumption.
      intros _. right. reflexivity.
  - unfold ret. cbn [fst snd]. rewrite live_app, Hinv, L0.
    repeat split; try assumption.
    intros Hc. destruct (C0 Hc) as [-> _]. left. reflexivity.
Qed.

Lemma poll_keeps_socket_accounting_witness :
  live (snd (poll__poll Scenario.arm Scenario.sscanf_integers
               (Scenario.peer 3 0 (Scenario.framed "acceleration:1:2:3:4"))
               {| fd := -1; delay := 0 |} 2 []))
  = Some [].
Proof.
  refine (proj1 (poll_keeps_socket_accounting Scenario.arm Z
                   Scenario.sscanf_integers
                   (Scenario.peer 3 0 (Scenario.framed "acceleration:1:2:3:4"))
                   {| fd := -1; delay := 0 |} 2 [] _)).
  reflexivity.
Defined.

(** X10.  Every record [poll__poll] stores is an acceleration record:
    [sensor] is [ID_ACCELERATION] and [version] is the size of
    [sensors_event_t]. *)
Theorem poll_stores_acceleration_records (P : C.platform) (float : Type)
    (sscanf_acceleration : list byte -> option (float * float * float * Z))
    (os : OS) (ctl : SensorPoll) (count : Z) (tr : trace) :
  match fst (poll__poll P sscanf_acceleration os ctl count tr) with
  | Some (_, data, _) =>
      Forall (fun e => sensor float e = ID_ACCELERATION P
                       /\ version float e = C.sizeof_sensors_event_t P)
        data
  | None => True
  end.
Proof.
  unfold poll__poll, bind.
  destruct (open_connection os ctl tr) as [c tr0].
  destruct (0 <=? fd c).
  - destruct (poll_loop_effect P float sscanf_acceleration os count
                (Z.to_nat count) 0 c [] tr0) as (e1 & _ & H1).
    destruct (fst (poll_loop P sscanf_acceleration os (Z.to_nat count) 0
                     count c [] tr0)) as [[[r d] c']|]; [|exact I].
    destruct H1 as [_ (more & -> & Hm)]. exact Hm.
  - cbn. constructor.
Qed.

(** X11.  On a connected channel a [count] of zero or less makes
    [poll__poll] return [count] itself, a negative one included, without a
    single call and with the channel unchanged. *)
Theorem poll_nonpositive_count (P : C.platform) (float : Type)
    (sscanf_acceleration : list byte -> option (float * float * float * Z))
    (os : OS) (ctl : SensorPoll) (count : Z) (tr : trace) :
  0 <= fd ctl -> count <= 0 ->
  poll__poll P sscanf_acceleration os ctl count tr
  = (Some (count, [], ctl), tr).
Proof.
  intros Hfd Hc. unfold poll__poll, bind.
  rewrite (CommandFacts.open_connection_connected os ctl tr Hfd).
  replace (0 <=? fd ctl) with true by (symmetry; apply Z.leb_le; lia).
  replace (Z.to_nat count) with 0%nat by lia.
  reflexivity.
Qed.

Lemma poll_nonpositive_count_witness :
  poll__poll Scenario.arm Scenario.sscanf_integers (Scenario.peer 3 0 [])
    {| fd := 3; delay := 0 |} (-2) []
  = (Some (-2, [], {| fd := 3; delay := 0 |}), []).
Proof.
  apply (poll_nonpositive_count Scenario.arm Z Scenario.sscanf_integers
           (Scenario.peer 3 0 []) {| fd := 3; delay := 0 |} (-2) []).
  - simpl; lia.
  - lia.
Defined.

(** The two writes of a command keep the books: they leave the channel
    alone and return 0, or close its descriptor, mark it disconnected and
    return -1. *)
Lemma send_command_live (os : OS) (ctl : SensorPoll) (text : string)
    (tr : trace) :
  0 <= fd ctl ->
  exists evs,
    snd (send_command os ctl (C.snprintf 128 text) tr) = tr ++ evs
    /\ live_after (Some (owned (fd ctl))) evs
       = Some (owned (fd (snd (fst (send_command os ctl
                                      (C.snprintf 128 text) tr)))))
    /\ delay (snd (fst (send_command os ctl (C.snprintf 128 text) tr)))
       = delay ctl
    /\ (fst (fst (send_command os ctl (C.snprintf 128 text) tr)) = 0
        /\ fd (snd (fst (send_command os ctl (C.snprintf 128 text) tr)))
           = fd ctl
        \/ fst (fst (send_command os ctl (C.snprintf 128 text) tr)) = -1
           /\ fd (snd (fst (send_command os ctl (C.snprintf 128 text) tr)))
              = -1).
Proof.
  intros Hfd. rewrite CommandFacts.send_command_cases. cbv zeta.
  assert (Ho : owned (fd ctl) = [fd ctl]).
  { unfold owned.
    replace (0 <=? fd ctl) with true by (symmetry; apply Z.leb_le; lia).
    reflexivity. }
  destruct (os_send os tr (fd ctl) _ <? 0).
  - rewrite <- !app_assoc. eexists. cbn [fst snd]. split; [reflexivity|].
    rewrite Ho. cbn. rewrite Z.eqb_refl. cbn. repeat split. right.
    split; reflexivity.
  - destruct (os_send os _ (fd ctl) _ <? 0).
    + rewrite <- !app_assoc. eexists. cbn [fst snd]. split; [reflexivity|].
      rewrite Ho. cbn. rewrite Z.eqb_refl. cbn. repeat split. right.
      split; reflexivity.
    + rewrite <- !app_assoc. eexists. cbn [fst snd]. split; [reflexivity|].
      rewrite Ho. cbn. repeat split. left. split; reflexivity.
Qed.

(** X12.  [poll__activate] and [poll__setDelay] keep the books on
    descriptors for every handle: if the descriptor of the channel is the
    only one open before the call, the same holds for the channel state
    after it.  [poll__activate] leaves the delay alone, and a call that
    returns -1 for the acceleration handle has closed the channel and marked
    it disconnected. *)
Theorem control_calls_keep_socket_accounting (P : C.platform) (os : OS)
    (ctl : SensorPoll) (handle arg : Z) (tr : trace) :
  live tr = Some (owned (fd ctl)) ->
  let a := poll__activate P os ctl handle arg tr in
  let d := poll__setDelay P os ctl handle arg tr in
  live (snd a) = Some (owned (fd (snd (fst a))))
  /\ live (snd d) = Some (owned (fd (snd (fst d))))
  /\ delay (snd (fst a)) = delay ctl
  /\ (handle = ID_ACCELERATION P ->
      (fst (fst a) = -1 -> fd (snd (fst a)) = -1)
      /\ (fst (fst d) = -1 -> fd (snd (fst d)) = -1)).
Proof.
  intros Hinv. cbv zeta.
  unfold poll__activate, poll__setDelay, bind.
  destruct (open_connection_live os ctl tr) as (e0 & T0 & L0 & D0 & _).
  destruct (open_connection os ctl tr) as [c tr0].
  cbn [fst snd] in *. subst tr0.
  assert (Hbase : live (tr ++ e0) = Some (owned (fd c)))
    by (rewrite live_app, Hinv; exact L0).
  destruct (handle =? ID_ACCELERATION P) eqn:Eh.
  - cbn [fd]. destruct (0 <=? fd c) eqn:Ec.
    + apply Z.leb_le in Ec.
      destruct (send_command_live os c
                  ("set:" ++ _sensorIdToName P handle ++ ":"
                   ++ dec (if arg =? 0 then 0 else 1)) (tr ++ e0) Ec)
        as (e1 & T1 & L1 & D1 & R1).
      destruct (send_command_live os {| fd := fd c; delay := arg |}
                  ("setDelay:" ++ _sensorIdToName P handle ++ ":" ++ dec arg)
                  (tr ++ e0) Ec)
        as (e2 & T2 & L2 & _ & R2).
      cbn [fd] in *.
      split; [rewrite T1, live_app, Hbase; exact L1|].
      split; [rewrite T2, live_app, Hbase; exact L2|].
      split; [rewrite D1; exact D0|].
      intros _. split; intros Hr.
      * destruct R1 as [[R _]|[_ R]]; [lia | exact R].
      * destruct R2 as [[R _]|[_ R]]; [lia | exact R].
    + unfold ret. cbn [fst snd fd].
      split; [assumption|]. split; [assumption|]. split; [assumption|].
      intros _. split; intros Hr; discriminate Hr.
  - unfold ret. cbn [fst snd fd].
    split; [assumption|]. split; [assumption|]. split; [assumption|].
    intros ->. rewrite Z.eqb_refl in Eh. discriminate Eh.
Qed.

Lemma control_calls_keep_socket_accounting_witness :
  live (snd (poll__setDelay Scenario.arm (Scenario.peer 3 0 [])
               {| fd := -1; delay := 0 |}
               (ID_ACCELERATION Scenario.arm) 20000 []))
  = Some [3].
Proof.
  refine (proj1 (proj2 (control_calls_keep_socket_accounting Scenario.arm
                          (Scenario.peer 3 0 []) {| fd := -1; delay := 0 |}
                          (ID_ACCELERATION Scenario.arm) 20000 [] _))).
  reflexivity.
Defined.

(** X13.  A device that [open_sensors] has just made owns no descriptor,
    and [poll__close] gives back the one the channel holds: when it was the
    only one open, none is open afterwards.  [poll__close] returns 0. *)
Theorem close_releases_socket (POLL : string) (EINVAL : Z)
    (name : list byte) (ctl : SensorPoll) (tr : trace) :
  (open_sensors POLL EINVAL name = (0, Some ctl) ->
   live [] = Some (owned (fd ctl)))
  /\ (live tr = Some (owned (fd ctl)) ->
      fst (poll__close ctl tr) = 0
      /\ live (snd (poll__close ctl tr)) = Some []).
Proof.
  split.
  - unfold open_sensors. destruct (C.strcmp _ _ =? 0); intros H.
    + injection H as <-. reflexivity.
    + discriminate.
  - intros Hinv. unfold poll__close, bind, close, emit, ret.
    unfold owned in Hinv.
    destruct (0 <=? fd ctl); cbn [fst snd].
    + split; [reflexivity|].
      rewrite live_app, Hinv. cbn. rewrite Z.eqb_refl. reflexivity.
    + split; [reflexivity | exact Hinv].
Qed.

Lemma close_releases_socket_witness :
  live (snd (poll__close {| fd := 3; delay := 0 |}
               [Socket 3; IgnoreSigpipe;
                Connect 3 SENSORS_HANDLE_FILE 0; SetRcvTimeo 3 1 0 0]))
  = Some [].
Proof.
  refine (proj2 (proj2 (close_releases_socket "poll" 22 (C.lit "poll")
                          {| fd := 3; delay := 0 |}
                          [Socket 3; IgnoreSigpipe;
                           Connect 3 SENSORS_HANDLE_FILE 0;
                           SetRcvTimeo 3 1 0 0]) _)).
  reflexivity.
Defined.

End OwnershipFacts.

(** ** More on the buffer relay *)

Module RelayFacts.
Import Sys Sharebuffer OwnershipFacts.

Ltac shape :=
  cbn [fst snd Z.ltb Z.compare]; rewrite <- ?app_assoc;
  eexists; (split; [reflexivity|]); cbn [fst app].

(** A call on a connected channel leaves the channel alone and returns 0,
    or ends by closing its descriptor, marks it disconnected and returns
    -1. *)
Lemma fb_post_connected_effect (P : C.platform) (os : OS) (fd : Z)
    (buffer : native_handle_t) (w h s pf : Z) (tr : trace) :
  0 <= fd ->
  exists evs,
    snd (fb_post P os {| fd_renderer := fd |} buffer w h s pf tr) = tr ++ evs
    /\ match fst (fb_post P os {| fd_renderer := fd |} buffer w h s pf tr) with
       | Some (r, m') =>
           (r = 0 /\ fd_renderer m' = fd /\ forallb neutral evs = true)
           \/ (r = -1 /\ fd_renderer m' = -1
               /\ exists pre, evs = pre ++ [Close fd]
                              /\ forallb neutral pre = true)
       | None => forallb neutral evs = true
       end.
Proof.
  intros Hfd.
  unfold fb_post, send_native_handle, recv_status, exit_error, bind, ret,
    sendmsg, recv, uninit, ALOGW, ALOGE, close, emit.
  cbn [fd_renderer].
  replace (fd <? 0) with false by (symmetry; apply Z.ltb_ge; lia).
  replace (0 <=? fd) with true by (symmetry; apply Z.leb_le; lia).
  destruct (message_buffer buffer _) as [msg|];
    [|exists []; rewrite app_nil_r; split; reflexivity].
  destruct (ancillary_fds P buffer) as [fds|];
    [|exists []; rewrite app_nil_r; split; reflexivity].
  destruct (os_sendmsg os tr fd msg fds <? 0).
  { shape. right. split; [reflexivity|]. split; [reflexivity|]. split_last. }
  destruct (os_recv os _ fd 3) as [|d].
  { shape. right. split; [reflexivity|]. split; [reflexivity|]. split_last. }
  destruct (negb (Byte.eqb (nth 2 _ x00) x00)).
  { shape. right. split; [reflexivity|]. split; [reflexivity|]. split_last. }
  destruct (C.strcmp _ (C.lit "OK") =? 0).
  { shape. left. repeat split. }
  destruct (negb (C.strcmp _ (C.lit "FA") =? 0)).
  { shape. right. split; [reflexivity|]. split; [reflexivity|]. split_last. }
  shape. right. split; [reflexivity|]. split; [reflexivity|]. split_last.
Qed.

Lemma connect_to_renderer_live (os : OS) (tr : trace) (l : list Z) :
  exists evs,
    snd (connect_to_renderer os tr) = tr ++ evs
    /\ live_after (Some l) evs
       = Some (owned (fst (connect_to_renderer os tr)) ++ l)
    /\ (fst (connect_to_renderer os tr) = -1
        \/ 0 <= fst (connect_to_renderer os tr)).
Proof.
  rewrite SharebufferFacts.connect_to_renderer_cases. cbv zeta.
  destruct (os_socket os tr <? 0) eqn:Es.
  - eexists. cbn [fst snd]. split; [reflexivity|].
    cbn. rewrite Z.leb_antisym, Es. split; [reflexivity | left; reflexivity].
  - assert (Hs : (0 <=? os_socket os tr) = true)
      by (rewrite Z.leb_antisym, Es; reflexivity).
    destruct (os_connect os _ _ _ <? 0).
    + eexists. cbn [fst snd]. split; [reflexivity|].
      cbn. rewrite Hs. cbn. rewrite Z.eqb_refl.
      split; [reflexivity | left; reflexivity].
    + eexists. cbn [fst snd]. split; [reflexivity|].
      cbn. unfold owned. rewrite Hs.
      split; [reflexivity | right; apply Z.leb_le; exact Hs].
Qed.

(** A call on a disconnected channel is the connection attempt followed,
    when it succeeds, by a call on the new descriptor. *)
Lemma fb_post_reconnect (P : C.platform) (os : OS) (fd0 : Z) (buffer : native_handle_t)
    (w h s pf : Z) (tr : trace) :
  fd0 < 0 ->
  fb_post P os {| fd_renderer := fd0 |} buffer w h s pf tr =
    let tr0 := tr ++ [Log LOG_W "connecting to renderer"] in
    let fd := fst (connect_to_renderer os tr0) in
    let tr1 := snd (connect_to_renderer os tr0) in
    if 0 <=? fd
    then fb_post P os {| fd_renderer := fd |} buffer w h s pf tr1
    else (Some (0, {| fd_renderer := fd |}), tr1).
Proof.
  intros H0. cbv zeta. unfold fb_post at 1. unfold bind at 1 2.
  cbn [fd_renderer].
  replace (fd0 <? 0) with true by (symmetry; apply Z.ltb_lt; lia).
  unfold ALOGW, emit.
  destruct (connect_to_renderer os _) as [fd tr1]. cbn [fst snd].
  destruct (0 <=? fd) eqn:E; [|reflexivity].
  unfold fb_post, bind. cbn [fd_renderer].
  replace (fd <? 0) with false
    by (symmetry; apply Z.ltb_ge; apply Z.leb_le in E; lia).
  unfold ret. rewrite E. reflexivity.
Qed.

(** X14.  [fb_post] keeps the books on descriptors: if the descriptor of
    the relay channel is the only one open before the call, the same holds
    for the channel state after it.  The call returns 0 or -1, and whenever
    it returns -1 the channel is marked disconnected. *)
Theorem fb_post_keeps_socket_accounting (P : C.platform) (os : OS) (m : private_module_t)
    (buffer : native_handle_t) (w h s pf : Z) (tr : trace) :
  live tr = Some (owned (fd_renderer m)) ->
  match fst (fb_post P os m buffer w h s pf tr) with
  | Some (r, m') =>
      live (snd (fb_post P os m buffer w h s pf tr))
      = Some (owned (fd_renderer m'))
      /\ (r = 0 \/ r = -1)
      /\ (r = -1 -> fd_renderer m' = -1)
  | None => True
  end.
Proof.
  intros Hinv. destruct m as [fd0]. cbn [fd_renderer] in Hinv.
  assert (Hconn : forall fd t, 0 <= fd -> live t = Some (owned fd) ->
            match fst (fb_post P os {| fd_renderer := fd |} buffer w h s pf t)
            with
            | Some (r, m') =>
                live (snd (fb_post P os {| fd_renderer := fd |} buffer w h s
                             pf t))
                = Some (owned (fd_renderer m'))
                /\ (r = 0 \/ r = -1)
                /\ (r = -1 -> fd_renderer m' = -1)
            | None => True
            end).
  { intros fd t Hfd Ht.
    destruct (fb_post_connected_effect P os fd buffer w h s pf t Hfd)
      as (evs & T & H).
    rewrite T.
    destruct (fst (fb_post P os {| fd_renderer := fd |} buffer w h s pf t))
      as [[r m']|]; [|exact I].
    destruct H as [(-> & -> & Hn)|(-> & -> & pre & -> & Hn)].
    - rewrite live_app, Ht, (live_after_neutral _ _ Hn).
      split; [reflexivity|]. split; [left; reflexivity | lia].
    - rewrite live_app, Ht, (live_after_drop _ _ Hfd Hn).
      split; [reflexivity|]. split; [right; reflexivity | reflexivity]. }
  destruct (Z.lt_ge_cases fd0 0) as [Hneg|Hpos]; [|apply Hconn; assumption].
  rewrite (fb_post_reconnect P os fd0 buffer w h s pf tr Hneg). cbv zeta.
  destruct (connect_to_renderer_live os
              (tr ++ [Log LOG_W "connecting to renderer"]) [])
    as (evs & T & L & R).
  rewrite app_nil_r in L.
  assert (Hl : live (snd (connect_to_renderer os
                            (tr ++ [Log LOG_W "connecting to renderer"])))
               = Some (owned (fst (connect_to_renderer os
                            (tr ++ [Log LOG_W "connecting to renderer"]))))).
  { rewrite T, live_app, live_app, Hinv. cbn [live_after fold_left live_step].
    unfold owned at 1.
    replace (0 <=? fd0) with false by (symmetry; apply Z.leb_gt; lia).
    exact L. }
  destruct (0 <=? fst (connect_to_renderer os _)) eqn:E.
  - apply Hconn; [apply Z.leb_le; exact E | exact Hl].
  - cbn [fst snd fd_renderer]. split; [exact Hl|].
    split; [left; reflexivity | discriminate].
Qed.

(** The two halves of a packed word. *)
Lemma pack16_halves (lo hi : Z) :
  Z.land (pack16 lo hi) 0xFFFF = lo mod 2 ^ 16
  /\ Z.shiftr (pack16 lo hi) 16 = hi mod 2 ^ 16.
Proof.
  unfold pack16, C.to_uint32.
  assert (Hhi : Z.shiftl (hi mod 2 ^ 32) 16 mod 2 ^ 32
                = Z.shiftl (hi mod 2 ^ 16) 16).
  { rewrite !Z.shiftl_mul_pow2 by lia.
    change (2 ^ 32) with (2 ^ 16 * 2 ^ 16) at 2.
    rewrite Z.mul_mod_distr_r by lia.
    f_equal. change (2 ^ 32) with (2 ^ 16 * 2 ^ 16).
    rewrite Z.rem_mul_r by lia.
    rewrite Z.mul_comm, Z.mod_add by lia. apply Z.mod_mod. lia. }
  rewrite Hhi.
  pose proof (Z.mod_pos_bound lo (2 ^ 16) ltac:(lia)) as Ha.
  pose proof (Z.mod_pos_bound hi (2 ^ 16) ltac:(lia)) as Hb.
  set (a := lo mod 2 ^ 16) in *. set (b := hi mod 2 ^ 16) in *.
  split.
  - change 0xFFFF with (Z.ones 16). apply Z.bits_inj'. intros n Hn.
    rewrite Z.land_spec, Z.lor_spec.
    destruct (Z.lt_ge_cases n 16).
    + rewrite Z.ones_spec_low by lia. rewrite Z.shiftl_spec_low by lia.
      rewrite orb_false_r, andb_true_r. reflexivity.
    + rewrite Z.ones_spec_high by lia. rewrite andb_false_r.
      symmetry. unfold a. apply Z.mod_pow2_bits_high. lia.
  - rewrite Z.shiftr_lor, Z.shiftr_shiftl_l by lia.
    rewrite Z.sub_diag, Z.shiftl_0_r, Z.shiftr_div_pow2 by lia.
    rewrite Z.div_small by lia. apply Z.lor_0_l.
Qed.

Lemma fb_post_keeps_socket_accounting_witness :
  live (snd (fb_post Scenario.arm (Scenario.peer 3 0 [RecvData (C.lit "FA")])
               {| fd_renderer := -1 |} Scenario.handle_1_0 1 2 3 4 []))
  = Some [].
Proof.
  refine (proj1 (fb_post_keeps_socket_accounting Scenario.arm
                   (Scenario.peer 3 0 [RecvData (C.lit "FA")])
                   {| fd_renderer := -1 |} Scenario.handle_1_0 1 2 3 4 [] _)).
  reflexivity.
Defined.

(** A call on a disconnected channel starts with the log line and the
    creation of a socket. *)
Lemma fb_post_disconnected_connects (P : C.platform) (os : OS) (buffer : native_handle_t)
    (w h s pf : Z) (tr : trace) :
  exists rest,
    snd (fb_post P os {| fd_renderer := -1 |} buffer w h s pf tr)
    = tr ++ Log LOG_W "connecting to renderer"
         :: Socket (os_socket os (tr ++ [Log LOG_W "connecting to renderer"]))
         :: rest.
Proof.
  rewrite (fb_post_reconnect P os (-1) buffer w h s pf tr) by lia. cbv zeta.
  rewrite SharebufferFacts.connect_to_renderer_cases. cbv zeta.
  destruct (os_socket os _ <? 0) eqn:Es.
  - cbn [fst snd]. rewrite <- app_assoc. eexists. reflexivity.
  - destruct (os_connect os _ _ _ <? 0).
    + cbn [fst snd]. rewrite <- app_assoc. eexists. reflexivity.
    + cbn [fst snd].
      replace (0 <=? os_socket os _) with true
        by (rewrite Z.leb_antisym, Es; reflexivity).
      destruct (fb_post_connected_effect P os (os_socket os
                  (tr ++ [Log LOG_W "connecting to renderer"])) buffer
                  w h s pf
                  ((tr ++ [Log LOG_W "connecting to renderer"])
                   ++ [Socket (os_socket os
                         (tr ++ [Log LOG_W "connecting to renderer"]));
                       Connect (os_socket os
                         (tr ++ [Log LOG_W "connecting to renderer"]))
                         SHM_BUFFER_HANDLE_FILE
                         (os_connect os
                            ((tr ++ [Log LOG_W "connecting to renderer"])
                             ++ [Socket (os_socket os
                                  (tr ++ [Log LOG_W "connecting to renderer"]))])
                            (os_socket os
                               (tr ++ [Log LOG_W "connecting to renderer"]))
                            SHM_BUFFER_HANDLE_FILE)]))
        as (evs & T & _).
      { apply Z.ltb_ge. exact Es. }
      rewrite T. rewrite <- !app_assoc. eexists. reflexivity.
Qed.

(** X15.  When [sendmsg] fails on a connected channel, [fb_post] closes the
    descriptor, marks the channel disconnected and returns -1 without
    waiting for a status; the next [fb_post] then starts with a new
    connection attempt. *)
Theorem failed_send_forces_reconnect (P : C.platform) (os : OS) (m : private_module_t)
    (buffer : native_handle_t) (w h s pf : Z) (tr : trace)
    (msg : list byte) (fds : list Z) :
  0 <= fd_renderer m ->
  message_buffer buffer {| width := w; height := h; stride := s;
                           pixel_format := pf |} = Some msg ->
  ancillary_fds P buffer = Some fds ->
  let fd := fd_renderer m in
  let sent := os_sendmsg os tr fd msg fds in
  sent < 0 ->
  let tr1 := tr ++ [Sendmsg fd msg fds sent;
                    Log LOG_W "sending buffer failed"; Close fd] in
  fb_post P os m buffer w h s pf tr
  = (Some (-1, {| fd_renderer := -1 |}), tr1)
  /\ forall buffer' w' h' s' pf', exists rest,
       snd (fb_post P os {| fd_renderer := -1 |} buffer' w' h' s' pf' tr1)
       = tr1 ++ Log LOG_W "connecting to renderer"
             :: Socket (os_socket os
                          (tr1 ++ [Log LOG_W "connecting to renderer"]))
             :: rest.
Proof.
  intros Hfd Hmsg Hfds. cbv zeta. intros Hsent. split.
  - destruct m as [fd]. cbn [fd_renderer] in *.
    unfold fb_post, send_native_handle. cbn [fd_renderer].
    replace (fd <? 0) with false by (symmetry; apply Z.ltb_ge; lia).
    rewrite Hmsg, Hfds.
    unfold bind, ret, sendmsg.
    replace (0 <=? fd) with true by (symmetry; apply Z.leb_le; lia).
    replace (os_sendmsg os tr fd msg fds <? 0) with true
      by (symmetry; apply Z.ltb_lt; lia).
    unfold exit_error, bind, ALOGW, close, emit, ret.
    rewrite <- !app_assoc. reflexivity.
  - intros. apply fb_post_disconnected_connects.
Qed.

Lemma failed_send_forces_reconnect_witness :
  fb_post Scenario.arm Scenario.reset_peer {| fd_renderer := 3 |} Scenario.handle_1_0
    1 2 3 4 []
  = (Some (-1, {| fd_renderer := -1 |}),
     [Sendmsg 3 (info_bytes Scenario.info_1234
                 ++ handle_bytes Scenario.handle_1_0) [7] (-1);
      Log LOG_W "sending buffer failed"; Close 3]).
Proof.
  refine (proj1 (failed_send_forces_reconnect Scenario.arm
                   Scenario.reset_peer
                   {| fd_renderer := 3 |} Scenario.handle_1_0 1 2 3 4 []
                   (info_bytes Scenario.info_1234
                    ++ handle_bytes Scenario.handle_1_0) [7] _ _ _ _)).
  - simpl; lia.
  - reflexivity.
  - reflexivity.
  - simpl; lia.
Defined.

(** X16.  [recv_status] never looks at the number of bytes [recv]
    delivered.  When the peer has closed the connection and [recv] delivers
    nothing, the outcome is read off the three bytes the buffer held before
    the call; if these are O K NUL the result is success. *)
Theorem empty_status_reply_uses_stale_bytes (os : OS) (fd : Z)
    (failed : option Z) (tr : trace) (g0 g1 g2 : byte) (rest : list byte) :
  os_recv os tr fd 3 = RecvData [] ->
  os_garbage os tr = g0 :: g1 :: g2 :: rest ->
  fst (recv_status os fd failed tr)
  = (if negb (Byte.eqb g2 x00) then (-1, failed)
     else if C.strcmp [g0; g1; g2] (C.lit "OK") =? 0 then (0, Some 0)
     else (-1, Some 1))
  /\ (g0 = "O"%byte -> g1 = "K"%byte -> g2 = x00 ->
      fst (recv_status os fd failed tr) = (0, Some 0)).
Proof.
  intros Hr Hg.
  assert (E : fst (recv_status os fd failed tr)
              = (if negb (Byte.eqb g2 x00) then (-1, failed)
                 else if C.strcmp [g0; g1; g2] (C.lit "OK") =? 0
                      then (0, Some 0)
                      else (-1, Some 1))).
  { unfold recv_status, bind, uninit, recv, ret, ALOGE, emit.
    rewrite Hr, Hg.
    change (C.take 3 []) with (@nil byte).
    cbn [List.length skipn app firstn nth].
    destruct (negb (Byte.eqb g2 x00)); [reflexivity|].
    destruct (C.strcmp [g0; g1; g2] (C.lit "OK") =? 0); [reflexivity|].
    destruct (negb (C.strcmp [g0; g1; g2] (C.lit "FA") =? 0)); reflexivity. }
  split; [exact E|].
  intros -> -> ->. rewrite E. reflexivity.
Qed.

Lemma empty_status_reply_uses_stale_bytes_witness :
  fst (recv_status Scenario.closed_peer_stale_ok 3 None []) = (0, Some 0).
Proof.
  refine (proj2 (empty_status_reply_uses_stale_bytes
                   Scenario.closed_peer_stale_ok 3 None []
                   "O"%byte "K"%byte x00 [] _ _) _ _ _);
    reflexivity.
Defined.

(** X17.  For a handle with [numFds >= 0], [numInts >= 0] and [data]
    holding its [numFds + numInts] entries, the message handed to [sendmsg]
    has exactly [buffer_size] bytes, that is [28 + 4 * (numFds + numInts)],
    and the handle's header, with the two counts, is at bytes 16 to 27.
    The control message carries the [numFds] descriptors of the handle and,
    where [long] has 64 bits and [numFds] is odd, one more descriptor, 0:
    [cmsg_len] is set to [CMSG_SPACE], padding included. *)
Theorem message_size_matches_counts (P : C.platform) (os : OS) (fd : Z)
    (h : native_handle_t) (w hh s pf : Z) (tr : trace) :
  0 <= numFds h -> 0 <= numInts h ->
  Z.of_nat (List.length (data h)) = numFds h + numInts h ->
  28 + 4 * (numFds h + numInts h) < 2 ^ 32 ->
  exists msg fds r,
    send_native_handle P os fd h w hh s pf tr
    = (Some r, tr ++ [Sendmsg fd msg fds r])
    /\ Z.of_nat (List.length msg) = buffer_size h
    /\ buffer_size h = 28 + 4 * (numFds h + numInts h)
    /\ firstn 12 (skipn 16 msg) = header_bytes h
    /\ fds = firstn (Z.to_nat (numFds h)) (data h)
             ++ (if C.lp64 P && Z.odd (numFds h) then [0] else [])
    /\ Z.of_nat (List.length fds)
       = numFds h + (if C.lp64 P && Z.odd (numFds h) then 1 else 0).
Proof.
  intros Hf Hi Hlen Hsz.
  unfold send_native_handle.
  rewrite SharebufferFacts.message_buffer_layout by assumption.
  rewrite SharebufferFacts.ancillary_fds_descriptors by lia.
  unfold bind, sendmsg, ret.
  do 3 eexists. split; [reflexivity|].
  assert (Hb : buffer_size h = 28 + 4 * (numFds h + numInts h)).
  { unfold buffer_size, C.to_uint32, sizeof_buffer_info_t,
      sizeof_native_handle_t, sizeof_int.
    rewrite Z.mod_small; lia. }
  split; [|split; [exact Hb|split; [|split; [reflexivity|]]]].
  - rewrite Hb, List.length_app, SharebufferFacts.info_bytes_length,
      SharebufferFacts.handle_bytes_length. lia.
  - rewrite skipn_app, SharebufferFacts.info_bytes_length.
    rewrite (skipn_all2 (info_bytes _))
      by (rewrite SharebufferFacts.info_bytes_length; lia).
    cbn [app Nat.sub skipn]. unfold handle_bytes.
    rewrite firstn_app.
    replace (List.length (header_bytes h)) with 12%nat by reflexivity.
    rewrite firstn_all2 by (cbn; lia).
    cbn [Nat.sub firstn]. apply app_nil_r.
  - rewrite List.length_app, List.length_firstn.
    destruct (C.lp64 P && Z.odd (numFds h)); cbn [List.length]; lia.
Qed.

Lemma message_size_matches_counts_witness :
  exists msg fds r,
    send_native_handle Scenario.arm64 (Scenario.peer 3 0 []) 3
      Scenario.handle_1_2 1 2 3 4 []
    = (Some r, [] ++ [Sendmsg 3 msg fds r])
    /\ Z.of_nat (List.length msg) = buffer_size Scenario.handle_1_2
    /\ buffer_size Scenario.handle_1_2 = 28 + 4 * (1 + 2)
    /\ firstn 12 (skipn 16 msg) = header_bytes Scenario.handle_1_2
    /\ fds = [7] ++ [0]
    /\ Z.of_nat (List.length fds) = 1 + 1.
Proof.
  apply (message_size_matches_counts Scenario.arm64 (Scenario.peer 3 0 [])
           3 Scenario.handle_1_2 1 2 3 4 []);
    [ simpl; lia | simpl; lia | reflexivity | reflexivity ].
Defined.

Lemma update_rect_accepted (EINVAL : Z) (r : update_rect) (l t w h : Z) :
  0 <= l -> 0 <= t -> 0 <= w -> 0 <= h -> 0 < w \/ 0 < h ->
  fb_setUpdateRect EINVAL r l t w h
  = (0, {| reserved0 := 0x54445055;
           reserved1 := pack16 l t;
           reserved2 := pack16 (l + w) (t + h) |}).
Proof.
  intros Hl Ht Hw Hh Hpos. unfold fb_setUpdateRect.
  pose proof (Z.lor_nonneg w h) as Hwh.
  pose proof (Z.lor_nonneg l t) as Hlt.
  pose proof (Z.lor_eq_0_iff w h) as Hz.
  replace (Z.lor w h <=? 0) with false by (symmetry; apply Z.leb_gt; lia).
  replace (Z.lor l t <? 0) with false by (symmetry; apply Z.ltb_ge; lia).
  reflexivity.
Qed.

(** X18.  [fb_setUpdateRect] accepts a rectangle exactly when no argument
    is negative and width and height are not both zero; a rectangle of
    width zero and positive height (or the reverse) is accepted.  Every
    other call returns [-EINVAL] and leaves the three words as they were. *)
Theorem update_rect_accepted_iff (EINVAL : Z) (r : update_rect)
    (l t w h : Z) :
  (0 <= l /\ 0 <= t /\ 0 <= w /\ 0 <= h /\ (0 < w \/ 0 < h) ->
   fb_setUpdateRect EINVAL r l t w h
   = (0, {| reserved0 := 0x54445055;
            reserved1 := pack16 l t;
            reserved2 := pack16 (l + w) (t + h) |}))
  /\ (~ (0 <= l /\ 0 <= t /\ 0 <= w /\ 0 <= h /\ (0 < w \/ 0 < h)) ->
      fb_setUpdateRect EINVAL r l t w h = (- EINVAL, r)).
Proof.
  split.
  - intros (Hl & Ht & Hw & Hh & Hpos). apply update_rect_accepted; assumption.
  - intros Hn. unfold fb_setUpdateRect.
    pose proof (Z.lor_nonneg w h) as Hwh.
    pose proof (Z.lor_nonneg l t) as Hlt.
    pose proof (Z.lor_eq_0_iff w h) as Hz.
    destruct (Z.lor w h <=? 0) eqn:E1; [reflexivity|].
    destruct (Z.lor l t <? 0) eqn:E2; [reflexivity|].
    exfalso. apply Hn. apply Z.leb_gt in E1. apply Z.ltb_ge in E2. lia.
Qed.

Lemma update_rect_accepted_iff_witness :
  fb_setUpdateRect 22 {| reserved0 := 0; reserved1 := 0; reserved2 := 0 |}
    10 20 0 5
  = (0, {| reserved0 := 0x54445055;
           reserved1 := pack16 10 20;
           reserved2 := pack16 10 25 |})
  /\ fb_setUpdateRect 22 {| reserved0 := 1; reserved1 := 2; reserved2 := 3 |}
       10 20 0 0
     = (-22, {| reserved0 := 1; reserved1 := 2; reserved2 := 3 |}).
Proof.
  split.
  - apply (proj1 (update_rect_accepted_iff 22
                    {| reserved0 := 0; reserved1 := 0; reserved2 := 0 |}
                    10 20 0 5)).
    lia.
  - apply (proj2 (update_rect_accepted_iff 22
                    {| reserved0 := 1; reserved1 := 2; reserved2 := 3 |}
                    10 20 0 0)).
    lia.
Defined.

(** X19.  An accepted rectangle is stored as two packed corners: the low 16
    bits of [reserved[1]] hold [l] and the high 16 bits [t], and
    [reserved[2]] holds [l + w] and [t + h] the same way, each reduced
    modulo 65536; so the corners can be read back exactly as long as
    [l + w] and [t + h] are below 65536. *)
Theorem update_rect_halves (EINVAL : Z) (r : update_rect) (l t w h : Z) :
  0 <= l -> 0 <= t -> 0 <= w -> 0 <= h -> 0 < w \/ 0 < h ->
  let r' := snd (fb_setUpdateRect EINVAL r l t w h) in
  Z.land (reserved1 r') 0xFFFF = l mod 2 ^ 16
  /\ Z.shiftr (reserved1 r') 16 = t mod 2 ^ 16
  /\ Z.land (reserved2 r') 0xFFFF = (l + w) mod 2 ^ 16
  /\ Z.shiftr (reserved2 r') 16 = (t + h) mod 2 ^ 16
  /\ (l + w < 2 ^ 16 -> t + h < 2 ^ 16 ->
      Z.land (reserved1 r') 0xFFFF = l /\ Z.shiftr (reserved1 r') 16 = t
      /\ Z.land (reserved2 r') 0xFFFF = l + w
      /\ Z.shiftr (reserved2 r') 16 = t + h).
Proof.
  intros Hl Ht Hw Hh Hpos. cbv zeta.
  rewrite (update_rect_accepted EINVAL r l t w h) by assumption.
  cbn [snd reserved1 reserved2].
  destruct (pack16_halves l t) as [A B].
  destruct (pack16_halves (l + w) (t + h)) as [C D].
  repeat split; try assumption.
  - rewrite A. apply Z.mod_small. lia.
  - rewrite B. apply Z.mod_small. lia.
  - rewrite C. apply Z.mod_small. lia.
  - rewrite D. apply Z.mod_small. lia.
Qed.

Lemma update_rect_halves_witness :
  let r' := snd (fb_setUpdateRect 22
                   {| reserved0 := 0; reserved1 := 0; reserved2 := 0 |}
                   10 20 300 400) in
  Z.land (reserved1 r') 0xFFFF = 10 /\ Z.shiftr (reserved1 r') 16 = 20
  /\ Z.land (reserved2 r') 0xFFFF = 310
  /\ Z.shiftr (reserved2 r') 16 = 420.
Proof.
  refine (proj2 (proj2 (proj2 (proj2
            (update_rect_halves 22
               {| reserved0 := 0; reserved1 := 0; reserved2 := 0 |}
               10 20 300 400 _ _ _ _ _)))) _ _); lia.
Defined.

End RelayFacts.

(** ** More on one pass of the poll loop *)

Module PollFacts.
Import Sys Sfdroid_sensors.

(** The prefix byte of the request, 18, asks for 18 bytes on every
    target. *)
Lemma payload_request_18 (P : C.platform) :
  payload_request P (C.byte_of_Z 18) = 18.
Proof.
  unfold payload_request, C.to_size_t, C.char_val, C.size_t_bits.
  destruct (C.char_signed P), (C.lp64 P); reflexivity.
Qed.



(** X21.  When the peer has closed the connection, so that both [recv]s
    deliver nothing, the loop body does not notice at the prefix read: it
    takes the prefix byte of its own request, 18, as the length of the
    reply, reads an empty payload, and, [sscanf] rejecting the empty
    string, returns the slot index with the channel still marked
    connected. *)
Theorem closed_peer_keeps_channel (P : C.platform) (float : Type)
    (sscanf_acceleration : list byte -> option (float * float * float * Z))
    (os : OS) (ctl : SensorPoll) (i : Z) (tr : trace) :
  os_recv os tr (fd ctl) 1 = RecvData [] ->
  os_recv os (tr ++ [Recv (fd ctl) 1 false (RecvData [])]) (fd ctl) 18
  = RecvData [] ->
  sscanf_acceleration [] = None ->
  recv_reply P sscanf_acceleration os ctl i (C.byte_of_Z 18) tr
  = (Returned i ctl,
     tr ++ [Recv (fd ctl) 1 false (RecvData []);
            Recv (fd ctl) 18 false (RecvData []);
            Log LOG_E "unsupported command"]).
Proof.
  intros H1 H2 Hs.
  assert (Hn : payload_request P (hd (C.byte_of_Z 18) (C.take 1 []))
               = 18) by apply payload_request_18.
  pose proof (SensorsFacts.recv_reply_data P float sscanf_acceleration os
                ctl i (C.byte_of_Z 18) tr [] []) as R.
  cbv zeta in R. rewrite Hn in R.
  change (C.take 1 []) with (@nil byte) in R.
  rewrite (R H1 H2).
  change (C.take 18 []) with (@nil byte). cbn [List.length app C.cstr].
  change (Byte.eqb x00 x00) with true. cbv iota.
  rewrite Hs.
  change (sizeof_buff <=? Z.of_nat 0) with false. cbv iota.
  rewrite <- !app_assoc. reflexivity.
Qed.

Lemma closed_peer_keeps_channel_witness :
  recv_reply Scenario.x86 Scenario.sscanf_integers
    Scenario.closed_peer_stale_ok {| fd := 3; delay := 0 |} 0
    (C.byte_of_Z 18) []
  = (Returned 0 {| fd := 3; delay := 0 |},
     [Recv 3 1 false (RecvData []); Recv 3 18 false (RecvData []);
      Log LOG_E "unsupported command"]).
Proof.
  apply (closed_peer_keeps_channel Scenario.x86 Z Scenario.sscanf_integers
           Scenario.closed_peer_stale_ok {| fd := 3; delay := 0 |} 0 []);
    reflexivity.
Defined.





End PollFacts.
